(** * Block ordering, chat context and chart reconciliation

    A shallow embedding of the block-position code of the dashboard
    builder (the applet router written against raw SQL, the Drizzle
    storage class and the Express routes of [server/routes.ts]), of the
    Epesi Agent chat route, of the per-block chat-history context window
    and of the two [transformChartData] helpers of the client. *)

From Stdlib Require Import ZArith List String Ascii Bool Lia Permutation.
From Stdlib Require DecimalString.
From Stdlib Require Import Sorted.
Import ListNotations.
Open Scope string_scope.
Open Scope list_scope.
Open Scope Z_scope.

(* ================================================================== *)
(** * Part I: the embedding *)
(* ================================================================== *)

(** ** The [blocks] table

    [shared/schema.ts] declares [blocks] with a [varchar] primary key
    [id], a foreign key [dashboard_id] and an [integer] column
    [position].  The columns that no position code reads ([description],
    [content], creator and timestamps) are left out of the record. *)

Module Blocks.

Record Block := mkBlock {
  id : string;
  dashboardId : Z;
  title : string;
  btype : string;
  size : Z;
  position : Z
}.

(** The database: the ids of the existing dashboards and the rows of
    [blocks], in insertion order. *)
Record Db := mkDb {
  dashboards : list Z;
  blocks : list Block
}.

Definition set_position (p : Z) (b : Block) : Block :=
  mkBlock (id b) (dashboardId b) (title b) (btype b) (size b) p.

Definition with_blocks (db : Db) (t : list Block) : Db :=
  mkDb (dashboards db) t.

(** *** SQL statements *)

(** [UPDATE blocks SET ... WHERE wh]. *)
Definition sql_update (wh : Block -> bool) (set : Block -> Block)
    (t : list Block) : list Block :=
  map (fun b => if wh b then set b else b) t.

(** [DELETE FROM blocks WHERE wh]. *)
Definition sql_delete (wh : Block -> bool) (t : list Block) : list Block :=
  filter (fun b => negb (wh b)) t.

(** [SELECT * FROM blocks WHERE wh], first row ([getAsync]) or
    [undefined]. *)
Definition sql_get (wh : Block -> bool) (t : list Block) : option Block :=
  find wh t.

Definition has_id (i : string) (b : Block) : bool := String.eqb (id b) i.
Definition in_dashboard (d : Z) (b : Block) : bool := dashboardId b =? d.

(** [SELECT MAX(position) FROM blocks WHERE dashboard_id = d]: [None] is
    SQL [NULL], the result over no rows. *)
Definition sql_max_position (d : Z) (t : list Block) : option Z :=
  fold_left
    (fun acc b =>
       if in_dashboard d b then
         match acc with
         | None => Some (position b)
         | Some m => Some (Z.max m (position b))
         end
       else acc)
    t None.

Definition dashboard_exists (d : Z) (db : Db) : bool :=
  existsb (Z.eqb d) (dashboards db).

(** [INSERT INTO blocks]: refused on a duplicate primary key and on a
    dashboard that does not exist (foreign key). *)
Definition sql_insert (b : Block) (db : Db) : option Db :=
  if existsb (has_id (id b)) (blocks db) then None
  else if negb (dashboard_exists (dashboardId b) db) then None
  else Some (with_blocks db (blocks db ++ [b])).

(** *** Requests and replies *)

(** The [position] member of a request body: absent, JSON [null], or an
    integer. *)
Inductive ReqPosition :=
| PosUndefined
| PosNull
| PosNum (p : Z).

(** The members of a create or update body that the handlers read.  A
    member that is absent is [None]. *)
Record BlockReq := mkReq {
  r_title : option string;
  r_type : option string;
  r_size : option Z;
  r_position : ReqPosition
}.

(** What a handler leaves behind.  A handler that fails half way keeps
    the writes it already made: no handler opens a transaction. *)
Inductive Reply :=
| Success (db' : Db)
| NotFound
| ServerError (db' : Db).

Definition db_after (db : Db) (r : Reply) : Db :=
  match r with
  | Success db' => db'
  | NotFound => db
  | ServerError db' => db'
  end.

(** JavaScript [s || dflt] on an optional string: the empty string is
    falsy. *)
Definition str_or (s : option string) (dflt : string) : string :=
  match s with
  | Some EmptyString => dflt
  | Some v => v
  | None => dflt
  end.

(** JavaScript [n || dflt] on an optional integer: [0] is falsy. *)
Definition num_or (n : option Z) (dflt : Z) : Z :=
  match n with
  | Some 0 => dflt
  | Some v => v
  | None => dflt
  end.

(** [SET c = COALESCE($n, c)], and a member of a partial update that
    replaces the column when it is there. *)
Definition coalesce {A : Type} (v : option A) (old : A) : A :=
  match v with
  | Some x => x
  | None => old
  end.

Definition req_position_param (p : ReqPosition) : option Z :=
  match p with
  | PosNum z => Some z
  | _ => None
  end.

(** A row after an update of its [title], [type], [size] and
    [position], [np] being the position to write, if any. *)
Definition update_row (req : BlockReq) (np : option Z) (b : Block) : Block :=
  mkBlock (id b) (dashboardId b)
    (coalesce (r_title req) (title b))
    (coalesce (r_type req) (btype b))
    (coalesce (r_size req) (size b))
    (coalesce np (position b)).

(** *** The applet router ([routes/applet/dashboards/api.js]) *)

Module Applet.

(** [router.post('/dashboards/:dashboardId/blocks')].  [newId] is the
    identifier the handler draws from the clock and [Math.random]. *)
Definition createBlock (newId : string) (d : Z) (req : BlockReq) (db : Db)
    : Reply :=
  if negb (dashboard_exists d db) then NotFound
  else
    let '(blockPosition, t1) :=
      match r_position req with
      | PosUndefined | PosNull =>
          (* (maxPositionResult?.max_pos || -1) + 1 *)
          (num_or (sql_max_position d (blocks db)) (-1) + 1, blocks db)
      | PosNum p =>
          (p,
           sql_update (fun b => in_dashboard d b && (p <=? position b))
             (fun b => set_position (position b + 1) b) (blocks db))
      end in
    let db1 := with_blocks db t1 in
    match
      sql_insert
        (mkBlock newId d (str_or (r_title req) "Untitled Block")
           (str_or (r_type req) "ai") (num_or (r_size req) 4) blockPosition)
        db1
    with
    | Some db2 => Success db2
    | None => ServerError db1
    end.

(** [router.put('/blocks/:id')].  A [null] position enters the shifting
    branch, where every comparison with SQL [NULL] selects no row, and
    [COALESCE] then keeps the stored position. *)
Definition updateBlock (i : string) (req : BlockReq) (db : Db) : Reply :=
  match sql_get (has_id i) (blocks db) with
  | None => NotFound
  | Some block =>
      let d := dashboardId block in
      let oldPosition := position block in
      let t1 :=
        match r_position req with
        | PosUndefined => blocks db
        | PosNull => blocks db
        | PosNum newPosition =>
            if newPosition =? oldPosition then blocks db
            else if oldPosition <? newPosition then
              sql_update
                (fun b => in_dashboard d b && (oldPosition <? position b)
                          && (position b <=? newPosition))
                (fun b => set_position (position b - 1) b) (blocks db)
            else
              sql_update
                (fun b => in_dashboard d b && (newPosition <=? position b)
                          && (position b <? oldPosition))
                (fun b => set_position (position b + 1) b) (blocks db)
        end in
      Success
        (with_blocks db
           (sql_update (has_id i)
              (update_row req (req_position_param (r_position req)))
              t1))
  end.

(** [router.delete('/blocks/:id')]. *)
Definition deleteBlock (i : string) (db : Db) : Reply :=
  match sql_get (has_id i) (blocks db) with
  | None => NotFound
  | Some _ => Success (with_blocks db (sql_delete (has_id i) (blocks db)))
  end.

(** The loop of [router.put('/dashboards/:dashboardId/blocks/reorder')],
    entered at index [i]. *)
Fixpoint reorder_from (d : Z) (i : Z) (blockOrder : list string)
    (t : list Block) : list Block :=
  match blockOrder with
  | [] => t
  | x :: rest =>
      reorder_from d (i + 1) rest
        (sql_update (fun b => has_id x b && in_dashboard d b)
           (set_position i) t)
  end.

Definition reorderBlocks (d : Z) (blockOrder : list string) (db : Db)
    : Reply :=
  if negb (dashboard_exists d db) then NotFound
  else Success (with_blocks db (reorder_from d 0 blockOrder (blocks db))).

End Applet.

(** *** The storage class ([DatabaseStorage]) *)

Module Storage.

Definition createBlock (b : Block) (db : Db) : option Db := sql_insert b db.

Fixpoint insert_by_position (b : Block) (l : list Block) : list Block :=
  match l with
  | [] => [b]
  | x :: rest =>
      if position b <? position x then b :: l
      else x :: insert_by_position b rest
  end.

(** [ORDER BY position ASC], as a stable sort. *)
Definition order_by_position (l : list Block) : list Block :=
  fold_right insert_by_position [] l.

Definition getBlocksByDashboard (d : Z) (db : Db) : list Block :=
  order_by_position (filter (in_dashboard d) (blocks db)).

(** [updateBlock(id, { position })]: the only partial update the block
    routes build themselves. *)
Definition updateBlock_position (i : string) (p : Z) (db : Db) : Db :=
  with_blocks db (sql_update (has_id i) (set_position p) (blocks db)).

(** [updateBlock(id, updates)] for the members modelled here: the
    database after it and the updated row, if there is one.  A [null]
    position breaks the [NOT NULL] constraint. *)
Definition updateBlock (i : string) (updates : BlockReq) (db : Db)
    : option (Db * option Block) :=
  match r_position updates with
  | PosNull => None
  | _ =>
      let t :=
        sql_update (has_id i)
          (update_row updates (req_position_param (r_position updates)))
          (blocks db) in
      Some (with_blocks db t, sql_get (has_id i) t)
  end.

Definition deleteBlock (i : string) (db : Db) : Db :=
  with_blocks db (sql_delete (has_id i) (blocks db)).

Fixpoint reorder_from (d : Z) (i : Z) (blockOrder : list string)
    (t : list Block) : list Block :=
  match blockOrder with
  | [] => t
  | x :: rest =>
      reorder_from d (i + 1) rest
        (sql_update (fun b => has_id x b && in_dashboard d b)
           (set_position i) t)
  end.

Definition reorderBlocks (d : Z) (blockOrder : list string) (db : Db) : Db :=
  with_blocks db (reorder_from d 0 blockOrder (blocks db)).

End Storage.

(** *** The Express routes ([server/routes.ts]) *)

Module Routes.

(** [app.post("/api/dashboards/:id/blocks")]. *)
Definition createBlock (blockId : string) (d : Z) (req : BlockReq) (db : Db)
    : Reply :=
  match r_position req with
  | PosUndefined =>
      let existingBlocks := Storage.getBlocksByDashboard d db in
      let db1 :=
        fold_left
          (fun acc existingBlock =>
             Storage.updateBlock_position (id existingBlock)
               (position existingBlock + 1) acc)
          existingBlocks db in
      match
        Storage.createBlock
          (mkBlock blockId d (str_or (r_title req) "New Block")
             (str_or (r_type req) "ai") (num_or (r_size req) 4) 0)
          db1
      with
      | Some db2 => Success db2
      | None => ServerError db1
      end
  | PosNum p =>
      match
        Storage.createBlock
          (mkBlock blockId d (str_or (r_title req) "New Block")
             (str_or (r_type req) "ai") (num_or (r_size req) 4) p)
          db
      with
      | Some db2 => Success db2
      | None => ServerError db
      end
  | PosNull => ServerError db
  end.

(** [app.put("/api/blocks/:id")] and [app.patch('/api/blocks/:id')]:
    the body is handed to the storage class as it is. *)
Definition updateBlock (blockId : string) (updates : BlockReq) (db : Db)
    : Reply :=
  match Storage.updateBlock blockId updates db with
  | None => ServerError db
  | Some (db', Some _) => Success db'
  | Some (_, None) => NotFound
  end.

(** [app.delete("/api/blocks/:id")]. *)
Definition deleteBlock (blockId : string) (db : Db) : Reply :=
  Success (Storage.deleteBlock blockId db).

(** [app.put("/api/dashboards/:id/blocks/reorder")]. *)
Definition reorderBlocks (d : Z) (blockOrder : list string) (db : Db)
    : Reply :=
  Success (Storage.reorderBlocks d blockOrder db).

End Routes.

(** *** Saving insights as blocks (the applet router) *)

Module AppletInsights.

(** The members of an insight that reach a modelled column: [question]
    becomes the block's title. *)
Record Insight := mkInsight {
  question : string;
  description : string
}.

Inductive InsightReply :=
| Saved (db' : Db)
| BadRequest
| DashboardNotFound
| Failed (db' : Db).

Definition insight_block (blockId : string) (d : Z) (insight : Insight)
    (p : Z) : Block :=
  mkBlock blockId d (question insight) "ai" 4 p.

(** [router.post('/save-insight-block')].  [!dashboardId] holds for the
    identifier 0, [!insight] for a body without an insight. *)
Definition saveInsightBlock (blockId : string) (d : Z)
    (insight : option Insight) (at_position : ReqPosition) (db : Db)
    : InsightReply :=
  match insight with
  | None => BadRequest
  | Some insight =>
      if d =? 0 then BadRequest
      else if negb (dashboard_exists d db) then DashboardNotFound
      else
        let '(blockPosition, t1) :=
          match at_position with
          | PosUndefined | PosNull =>
              (num_or (sql_max_position d (blocks db)) (-1) + 1, blocks db)
          | PosNum p =>
              (p,
               sql_update (fun b => in_dashboard d b && (p <=? position b))
                 (fun b => set_position (position b + 1) b) (blocks db))
          end in
        let db1 := with_blocks db t1 in
        match sql_insert (insight_block blockId d insight blockPosition) db1
        with
        | Some db2 => Saved db2
        | None => Failed db1
        end
  end.

(** The loop of [router.post('/save-insight-blocks')] from index [i];
    [newId i] is the identifier drawn in round [i].  The first insert
    that is refused ends the request and keeps the earlier ones. *)
Fixpoint insert_from (newId : nat -> string) (d : Z) (first : Z)
    (i : nat) (insights : list Insight) (db : Db) : InsightReply :=
  match insights with
  | [] => Saved db
  | insight :: rest =>
      match
        sql_insert
          (insight_block (newId i) d insight (first + Z.of_nat i)) db
      with
      | Some db' => insert_from newId d first (S i) rest db'
      | None => Failed db
      end
  end.

(** [router.post('/save-insight-blocks')]; [None] is a body whose
    [insights] is missing or no array. *)
Definition saveInsightBlocks (newId : nat -> string) (d : Z)
    (insights : option (list Insight)) (startPosition : ReqPosition)
    (db : Db) : InsightReply :=
  match insights with
  | None => BadRequest
  | Some insights =>
      if d =? 0 then BadRequest
      else if negb (dashboard_exists d db) then DashboardNotFound
      else
        let '(first, t1) :=
          match startPosition with
          | PosUndefined | PosNull =>
              (num_or (sql_max_position d (blocks db)) (-1) + 1, blocks db)
          | PosNum p =>
              (p,
               sql_update (fun b => in_dashboard d b && (p <=? position b))
                 (fun b =>
                    set_position
                      (position b + Z.of_nat (List.length insights)) b)
                 (blocks db))
          end in
        insert_from newId d first 0 insights (with_blocks db t1)
  end.

Definition db_after_insights (db : Db) (r : InsightReply) : Db :=
  match r with
  | Saved db' => db'
  | Failed db' => db'
  | _ => db
  end.

End AppletInsights.

(** *** Positions of a dashboard *)

Definition positions (d : Z) (db : Db) : list Z :=
  map position (filter (in_dashboard d) (blocks db)).

(** The positions are exactly [{0, ..., N-1}], each taken once. *)
Definition dense (ps : list Z) : Prop :=
  NoDup ps /\ forall z, In z ps <-> 0 <= z < Z.of_nat (List.length ps).

Definition all_dense (db : Db) : Prop := forall d, dense (positions d db).

(** Integrity constraints of the schema: primary key and foreign key. *)
Definition well_formed (db : Db) : Prop :=
  NoDup (map id (blocks db)) /\
  forall b, In b (blocks db) -> dashboard_exists (dashboardId b) db = true.

(** The position operations of both back ends. *)
Inductive Op :=
| AppletCreate (newId : string) (d : Z) (req : BlockReq)
| AppletUpdate (i : string) (req : BlockReq)
| AppletDelete (i : string)
| AppletReorder (d : Z) (blockOrder : list string)
| RoutesCreate (blockId : string) (d : Z) (req : BlockReq)
| RoutesUpdate (blockId : string) (updates : BlockReq)
| RoutesDelete (blockId : string)
| RoutesReorder (d : Z) (blockOrder : list string).

Definition step (op : Op) (db : Db) : Reply :=
  match op with
  | AppletCreate newId d req => Applet.createBlock newId d req db
  | AppletUpdate i req => Applet.updateBlock i req db
  | AppletDelete i => Applet.deleteBlock i db
  | AppletReorder d o => Applet.reorderBlocks d o db
  | RoutesCreate blockId d req => Routes.createBlock blockId d req db
  | RoutesUpdate blockId updates => Routes.updateBlock blockId updates db
  | RoutesDelete blockId => Routes.deleteBlock blockId db
  | RoutesReorder d o => Routes.reorderBlocks d o db
  end.

Definition run (ops : list Op) (db : Db) : Db :=
  fold_left (fun acc op => db_after acc (step op acc)) ops db.

(** *** Row-wise readings of the statements

    What a statement, or a loop of statements, does to one row. *)

(** [UPDATE ... SET position = position + 1 WHERE dashboard_id = d AND
    position >= p]. *)
Definition shift_right (d p : Z) (b : Block) : Block :=
  if in_dashboard d b && (p <=? position b)
  then set_position (position b + 1) b else b.

(** The position of a row of the moved block's dashboard after
    [router.put('/blocks/:id')] took the block from [old] to [p]. *)
Definition move_position (old p z : Z) : Z :=
  if z =? old then p
  else if old <? p then
    if (old <? z) && (z <=? p) then z - 1 else z
  else
    if (p <=? z) && (z <? old) then z + 1 else z.

(** The reorder loop, entered at index [i], on one row. *)
Fixpoint reorder_row (d : Z) (i : Z) (blockOrder : list string) (b : Block)
    : Block :=
  match blockOrder with
  | [] => b
  | x :: rest =>
      reorder_row d (i + 1) rest
        (if has_id x b && in_dashboard d b then set_position i b else b)
  end.

(** The index of the last occurrence of [x] in a list whose first index
    is [i]. *)
Fixpoint last_index_from (i : Z) (x : string) (o : list string) : option Z :=
  match o with
  | [] => None
  | y :: rest =>
      match last_index_from (i + 1) x rest with
      | Some k => Some k
      | None => if String.eqb x y then Some i else None
      end
  end.

(** The loop of [updateBlock] calls of [app.post("/api/dashboards/:id/blocks")]
    over the rows [snapshot] read before it, on one row. *)
Definition bump_row (snapshot : list Block) (b : Block) : Block :=
  fold_left
    (fun b' e => if has_id (id e) b' then set_position (position e + 1) b'
                 else b')
    snapshot b.

(** [UPDATE ... SET position = position + k WHERE dashboard_id = d AND
    position >= p]. *)
Definition shift_by (d p k : Z) (b : Block) : Block :=
  if in_dashboard d b && (p <=? position b)
  then set_position (position b + k) b else b.

(** The insights saved one request at a time, the one of index [i] at
    position [p + i]. *)
Fixpoint save_one_by_one (newId : nat -> string) (d p : Z) (i : nat)
    (insights : list AppletInsights.Insight) (db : Db) : Db :=
  match insights with
  | [] => db
  | insight :: rest =>
      save_one_by_one newId d p (S i) rest
        (AppletInsights.db_after_insights db
           (AppletInsights.saveInsightBlock (newId i) d (Some insight)
              (PosNum (p + Z.of_nat i)) db))
  end.

(** The order of [ORDER BY position ASC]. *)
Definition le_position (a b : Block) : Prop := position a <= position b.


(** *** Requests that keep a dense dashboard dense *)

Definition block_count (d : Z) (db : Db) : Z :=
  Z.of_nat (List.length (positions d db)).

Definition ids_of (d : Z) (db : Db) : list string :=
  map id (filter (in_dashboard d) (blocks db)).

Definition fresh (i : string) (db : Db) : Prop := ~ In i (map id (blocks db)).





(** *** Sample data *)

Definition req_at (p : ReqPosition) : BlockReq := mkReq None None None p.


(** Dashboard 1 without blocks. *)
Definition empty_db : Db := mkDb [1] [].

(** Dashboard 1 with blocks at positions [0, 1, 2]. *)
Definition three_blocks : Db :=
  mkDb [1]
    [mkBlock "a" 1 "A" "chart" 4 0;
     mkBlock "b" 1 "B" "chart" 4 1;
     mkBlock "c" 1 "C" "chart" 4 2].

(** Dashboard 1 with blocks at positions [0, 1, 2, 3]. *)
Definition four_blocks : Db :=
  mkDb [1]
    [mkBlock "a" 1 "A" "chart" 4 0;
     mkBlock "b" 1 "B" "chart" 4 1;
     mkBlock "c" 1 "C" "chart" 4 2;
     mkBlock "e" 1 "E" "chart" 4 3].



(** Two insights and the identifiers drawn for them. *)
Definition two_insights : list AppletInsights.Insight :=
  [AppletInsights.mkInsight "Sales by region" "Regional totals";
   AppletInsights.mkInsight "Sales by quarter" "Quarterly totals"].

Definition sample_ids (i : nat) : string :=
  match i with
  | O => "x"
  | _ => "y"
  end.

Definition id_positions (db : Db) : list (string * Z) :=
  map (fun b => (id b, position b)) (blocks db).

End Blocks.

(** ** Per-block chat history and the context window

    [block_chat_history] rows; the [chartData] snapshot, which the
    window code passes along without reading, is left out. *)

Module ChatHistory.

Record BlockChatHistory := mkTurn {
  id : string;
  blockId : string;
  question : string;
  generatedAt : Z
}.

Fixpoint insert_desc (t : BlockChatHistory) (l : list BlockChatHistory)
    : list BlockChatHistory :=
  match l with
  | [] => [t]
  | x :: rest =>
      if generatedAt x <? generatedAt t then t :: l
      else x :: insert_desc t rest
  end.

(** [ORDER BY generated_at DESC]. *)
Definition order_by_generatedAt_desc (l : list BlockChatHistory)
    : list BlockChatHistory :=
  fold_right insert_desc [] l.

(** [DatabaseStorage.getBlockChatHistory], which
    [GET /api/blocks/:blockId/chat-history] returns as it is. *)
Definition getBlockChatHistory (b : string) (table : list BlockChatHistory)
    : list BlockChatHistory :=
  order_by_generatedAt_desc
    (filter (fun t => String.eqb (blockId t) b) table).

(** [Array.prototype.slice(start)]. *)
Definition slice {A : Type} (start : Z) (l : list A) : list A :=
  let len := Z.of_nat (List.length l) in
  let k := if start <? 0 then Z.max (len + start) 0 else Z.min start len in
  skipn (Z.to_nat k) l.

(** [chatHistory.slice(-6).reverse()] in [generateChartMutation]: the
    [chatHistory] member of the body posted to
    [/api/ai/generate-chart]. *)
Definition recentHistory (chatHistory : list BlockChatHistory)
    : list BlockChatHistory :=
  rev (slice (-6) chatHistory).

(** The context a chart request on block [b] carries. *)
Definition context_sent (b : string) (table : list BlockChatHistory)
    : list BlockChatHistory :=
  recentHistory (getBlockChatHistory b table).

(** What C6 asks for: the six most recent turns, the latest first. *)
Definition most_recent_first (b : string) (table : list BlockChatHistory)
    : list BlockChatHistory :=
  firstn 6 (getBlockChatHistory b table).

(** Eight turns of block [blk], asked at times 1 to 8. *)
Definition eight_turns : list BlockChatHistory :=
  [mkTurn "h1" "blk" "sales by region" 1;
   mkTurn "h2" "blk" "as a line chart" 2;
   mkTurn "h3" "blk" "only the north" 3;
   mkTurn "h4" "blk" "add the south" 4;
   mkTurn "h5" "blk" "by quarter" 5;
   mkTurn "h6" "blk" "in red" 6;
   mkTurn "h7" "blk" "top five products" 7;
   mkTurn "h8" "blk" "now make it a pie chart" 8].

End ChatHistory.

(** ** JavaScript values

    The values [JSON.parse] produces, with [undefined] for what a
    property read can return and [NaN] for what arithmetic could.  The
    code under study only ever asks a number whether it is truthy, so
    numbers are kept to the integers. *)

Module Js.

#[warnings="-register-all"]
Inductive JsValue :=
| JUndefined
| JNull
| JBool (b : bool)
| JNum (z : Z)
| JNaN
| JStr (s : string)
| JArr (items : list JsValue)
| JObj (members : list (string * JsValue)).

(** [ToBoolean]. *)
Definition truthy (v : JsValue) : bool :=
  match v with
  | JUndefined | JNull | JNaN => false
  | JBool b => b
  | JNum z => negb (z =? 0)
  | JStr s => negb (String.eqb s "")
  | JArr _ | JObj _ => true
  end.

(** [a || b]. *)
Definition or_else (a b : JsValue) : JsValue := if truthy a then a else b.

Fixpoint lookup (k : string) (members : list (string * JsValue)) : JsValue :=
  match members with
  | [] => JUndefined
  | (k', v) :: rest => if String.eqb k k' then v else lookup k rest
  end.

Definition decimal (n : nat) : string :=
  DecimalString.NilZero.string_of_uint (Nat.to_uint n).

(** [v.k] for an identifier [k] other than [length]: a [TypeError]
    ([None]) on [undefined] and [null]; [undefined] on every value that
    is not an object, since none of the names read here is a method or
    an index. *)
Definition prop (v : JsValue) (k : string) : option JsValue :=
  match v with
  | JUndefined | JNull => None
  | JObj members => Some (lookup k members)
  | _ => Some JUndefined
  end.

(** [v?.k]. *)
Definition opt_prop (v : JsValue) (k : string) : option JsValue :=
  match v with
  | JUndefined | JNull => Some JUndefined
  | _ => prop v k
  end.

Definition char_at (s : string) (i : nat) : JsValue :=
  match String.get i s with
  | Some c => JStr (String c EmptyString)
  | None => JUndefined
  end.

(** [v[i]]. *)
Definition index (v : JsValue) (i : nat) : option JsValue :=
  match v with
  | JUndefined | JNull => None
  | JArr items => Some (nth i items JUndefined)
  | JStr s => Some (char_at s i)
  | JObj members => Some (lookup (decimal i) members)
  | _ => Some JUndefined
  end.

(** [v.length]. *)
Definition length_of (v : JsValue) : option JsValue :=
  match v with
  | JUndefined | JNull => None
  | JArr items => Some (JNum (Z.of_nat (List.length items)))
  | JStr s => Some (JNum (Z.of_nat (String.length s)))
  | JObj members => Some (lookup "length" members)
  | _ => Some JUndefined
  end.

(** [v > 0], after [ToNumber] on the values [length_of] can give. *)
Definition positive (v : JsValue) : bool :=
  match v with
  | JNum z => 0 <? z
  | JBool b => b
  | _ => false
  end.

Definition isArray (v : JsValue) : bool :=
  match v with
  | JArr _ => true
  | _ => false
  end.

(** [typeof v === 'object']: [null] and arrays included. *)
Definition typeof_object (v : JsValue) : bool :=
  match v with
  | JNull | JArr _ | JObj _ => true
  | _ => false
  end.

Definition typeof_number (v : JsValue) : bool :=
  match v with
  | JNum _ | JNaN => true
  | _ => false
  end.

(** ['name' in v] for a [v] with [typeof v === 'object']: a [TypeError]
    on [null]. *)
Definition has_name (v : JsValue) : option bool :=
  match v with
  | JNull => None
  | JObj members => Some (existsb (fun kv => String.eqb (fst kv) "name") members)
  | _ => Some false
  end.

(** [{ name: n, value: v }]. *)
Definition entry (n v : JsValue) : JsValue :=
  JObj [("name", n); ("value", v)].

(** [xs.map((x, index) => f x index)], from index [i]. *)
Fixpoint mapi_from {A B : Type} (f : A -> nat -> B) (i : nat) (xs : list A)
    : list B :=
  match xs with
  | [] => []
  | x :: rest => f x i :: mapi_from f (S i) rest
  end.

Definition mapi {A B : Type} (f : A -> nat -> B) (xs : list A) : list B :=
  mapi_from f 0 xs.

(** The same when the callback can throw. *)
Fixpoint mapi_opt_from {A B : Type} (f : A -> nat -> option B) (i : nat)
    (xs : list A) : option (list B) :=
  match xs with
  | [] => Some []
  | x :: rest =>
      match f x i with
      | None => None
      | Some y =>
          match mapi_opt_from f (S i) rest with
          | None => None
          | Some ys => Some (y :: ys)
          end
      end
  end.

End Js.

(** ** JavaScript strings

    Sequences of UTF-16 code units: [length], [substring] and the
    regular expression all count and compare code units. *)

Module JsStr.

Definition jsstring := list N.

(** The code units of an ASCII literal. *)
Definition js (s : string) : jsstring :=
  map N_of_ascii (list_ascii_of_string s).

Definition length (s : jsstring) : Z := Z.of_nat (List.length s).

(** [String.prototype.substring(start, end)]: both ends are clamped to
    the string and swapped when out of order. *)
Definition substring (s : jsstring) (istart iend : Z) : jsstring :=
  let len := length s in
  let finalStart := Z.min (Z.max istart 0) len in
  let finalEnd := Z.min (Z.max iend 0) len in
  let from := Z.min finalStart finalEnd in
  let to := Z.max finalStart finalEnd in
  firstn (Z.to_nat (to - from)) (skipn (Z.to_nat from) s).

(** [WhiteSpace] and [LineTerminator] of the language. *)
Definition is_white_space (c : N) : bool :=
  ((9 <=? c) && (c <=? 13) || (c =? 32) || (c =? 160) || (c =? 5760)
   || (8192 <=? c) && (c <=? 8202) || (c =? 8232) || (c =? 8233)
   || (c =? 8239) || (c =? 8287) || (c =? 12288) || (c =? 65279))%N.

Fixpoint trimStart (s : jsstring) : jsstring :=
  match s with
  | [] => []
  | c :: rest => if is_white_space c then trimStart rest else s
  end.

Definition trim (s : jsstring) : jsstring :=
  List.rev (trimStart (List.rev (trimStart s))).

(** [Canonicalize] under the [i] flag without [u]: upper case, except
    that no code unit from 128 on is ever mapped below 128.  Every
    pattern below is ASCII, so only the comparison with ASCII code
    units matters, and it is the same as with a code unit from 128 on
    left where it is. *)
Definition canonicalize (c : N) : N :=
  (if (97 <=? c) && (c <=? 122) then c - 32 else c)%N.

(** A literal pattern matched, ignoring case, at the head of the input:
    the rest of the input. *)
Fixpoint match_literal (pattern input : jsstring) : option jsstring :=
  match pattern, input with
  | [], _ => Some input
  | _ :: _, [] => None
  | p :: pattern', c :: input' =>
      if (canonicalize p =? canonicalize c)%N
      then match_literal pattern' input' else None
  end.

(** [/^(a1|...|an)$/i.test(input)] for literal alternatives: some
    alternative takes the whole input. *)
Definition test_anchored_alternatives (alts : list jsstring)
    (input : jsstring) : bool :=
  existsb
    (fun alt =>
       match match_literal alt input with
       | Some [] => true
       | _ => false
       end)
    alts.

(** Two strings that differ in the case of ASCII letters at most. *)
Definition same_ignoring_case (a b : jsstring) : Prop :=
  Forall2 (fun x y => canonicalize x = canonicalize y) a b.

End JsStr.

(** ** The Epesi Agent chat route of [server/routes.ts] *)

Module EpesiAgent.

Import JsStr.

Record Dashboard := mkDashboard {
  dash_id : Z;
  organizationId : option Z
}.

Record DataSource := mkDataSource {
  ds_organizationId : Z;
  ds_name : jsstring;
  ds_content : Js.JsValue
}.

Record Conversation := mkConversation {
  conv_id : string;
  conv_dashboardId : Z;
  conv_title : jsstring;
  conv_createdById : string
}.

Inductive Role := user | assistant.

Record Message := mkMessage {
  msg_conversationId : string;
  msg_role : Role;
  msg_content : jsstring;
  msg_charts : option (list Js.JsValue)
}.

(** What [generateEpesiAgentResponse] is called with.  The two context
    strings are printed from the first two data sources; the printing
    is not modelled. *)
Record BackendRequest := mkBackendRequest {
  br_prompt : jsstring;
  br_sources : list DataSource;
  br_chartCount : Z
}.

Record AgentResponse := mkAgentResponse {
  ar_response : jsstring;
  ar_charts : list Js.JsValue
}.

(** An exception, by what the [catch] block looks for in its message. *)
Inductive ErrorKind := MentionsUnauthorized | MentionsNotFound | OtherError.

(** [generateEpesiAgentResponse] lives in [server/openai.ts], which is
    not part of the sources at hand: the route is modelled over any
    such function. *)
Definition Backend := BackendRequest -> AgentResponse + ErrorKind.

(** The stored state, and the log of calls made to the generation
    backend. *)
Record World := mkWorld {
  dashboards : list Dashboard;
  dataSources : list DataSource;
  conversations : list Conversation;
  messages : list Message;
  backend_calls : list BackendRequest
}.

Inductive Response :=
| Json (response : jsstring) (charts : list Js.JsValue)
       (conversationId : string)
| Status (code : Z) (message : string).

(** *** A state monad with early replies

    A handler step reads and writes the world and either goes on with a
    value or ends the request with a reply.  Writes made before the
    reply stay. *)

Inductive Step (A : Type) :=
| Continue (a : A)
| Reply (r : Response).

Arguments Continue {A} a.
Arguments Reply {A} r.

Definition M (A : Type) : Type := World -> Step A * World.

Definition ret {A : Type} (a : A) : M A := fun w => (Continue a, w).

Definition bind {A B : Type} (m : M A) (k : A -> M B) : M B :=
  fun w =>
    match m w with
    | (Continue a, w') => k a w'
    | (Reply r, w') => (Reply r, w')
    end.

Definition reply {A : Type} (r : Response) : M A := fun w => (Reply r, w).

Definition get : M World := fun w => (Continue w, w).

Definition put (w : World) : M unit := fun _ => (Continue tt, w).

Notation "x <- m ;; k" := (bind m (fun x => k))
  (at level 61, m at next level, right associativity).
Notation "m ;;; k" := (bind m (fun _ => k))
  (at level 61, right associativity).

(** The [catch] block of the route. *)
Definition caught (e : ErrorKind) : Response :=
  match e with
  | MentionsUnauthorized => Status 401 "Authentication required"
  | MentionsNotFound => Status 404 "Dashboard not found"
  | OtherError => Status 500 "Failed to process your request"
  end.

(** *** Storage calls *)

Definition getDashboard (i : Z) : M (option Dashboard) :=
  w <- get ;; ret (find (fun d => dash_id d =? i) (dashboards w)).

Definition getDataSourcesByOrganization (org : Z) : M (list DataSource) :=
  w <- get ;; ret (filter (fun s => ds_organizationId s =? org) (dataSources w)).

Definition getEpesiConversation (i : string) : M (option Conversation) :=
  w <- get ;; ret (find (fun c => String.eqb (conv_id c) i) (conversations w)).

(** A duplicate primary key makes the insert throw. *)
Definition createEpesiConversation (c : Conversation) : M Conversation :=
  w <- get ;;
  if existsb (fun c' => String.eqb (conv_id c') (conv_id c)) (conversations w)
  then reply (caught OtherError)
  else
    put (mkWorld (dashboards w) (dataSources w) (conversations w ++ [c])
           (messages w) (backend_calls w)) ;;;
    ret c.

Definition createEpesiMessage (m : Message) : M unit :=
  w <- get ;;
  put (mkWorld (dashboards w) (dataSources w) (conversations w)
         (messages w ++ [m]) (backend_calls w)).

(** [updateEpesiConversation(id, { title })] with the title the
    conversation already has: it only refreshes [updatedAt], a column
    that is not modelled. *)
Definition updateEpesiConversation (i : string) (t : jsstring) : M unit :=
  ret tt.

Definition call_backend (backend : Backend) (r : BackendRequest)
    : M AgentResponse :=
  w <- get ;;
  put (mkWorld (dashboards w) (dataSources w) (conversations w)
         (messages w) (backend_calls w ++ [r])) ;;;
  match backend r with
  | inl a => ret a
  | inr e => reply (caught e)
  end.

(** *** The route *)

(** The body of the request: [dashboardId] as [parseInt] reads it
    ([None] for [NaN]), [conversationId] when it is truthy. *)
Record ChatRequest := mkChatRequest {
  prompt : jsstring;
  dashboardId : option Z;
  conversationId : option string;
  userId : string
}.

(** [prompt.length > 50 ? prompt.substring(0, 50) + "..." : prompt]. *)
Definition title (prompt : jsstring) : jsstring :=
  if 50 <? length prompt then substring prompt 0 50 ++ js "..." else prompt.

Definition greetings : list jsstring :=
  map js
    ["hi"; "hello"; "hey"; "good morning"; "good afternoon";
     "good evening"; "what's up"; "how are you"; "what can you do"; "help"].

Definition isGreeting (prompt : jsstring) : bool :=
  test_anchored_alternatives greetings (trim prompt).

(** The fixed reply to a greeting; 10 is the line feed and 8226 the
    bullet. *)
Definition greeting_response : jsstring :=
  js "Hello! I'm Epesi Agent, your AI analytics assistant. I can help you:"
  ++ [10; 10; 8226]%N ++ js " Analyze your data and generate insights"
  ++ [10; 8226]%N ++ js " Create various types of charts and visualizations"
  ++ [10; 8226]%N ++ js " Answer questions about your data"
  ++ [10; 8226]%N ++ js " Generate comprehensive reports"
  ++ [10; 10]%N ++ js "What would you like to explore today?".

Definition num_or (n : option Z) (dflt : Z) : Z :=
  match n with
  | Some 0 => dflt
  | Some v => v
  | None => dflt
  end.

(** [app.post('/api/epesi-agent/chat')].  [newConversationId] is the
    identifier the route draws from the clock and [Math.random]. *)
Definition chat (backend : Backend) (newConversationId : string)
    (req : ChatRequest) : M Response :=
  match dashboardId req with
  | None => reply (Status 400 "Invalid dashboard ID")
  | Some numericDashboardId =>
      dashboard <- getDashboard numericDashboardId ;;
      match dashboard with
      | None => reply (Status 404 "Dashboard not found")
      | Some dashboard =>
          found <- getDataSourcesByOrganization
                     (num_or (organizationId dashboard) 1) ;;
          sources <- match found with
                     | [] => getDataSourcesByOrganization 1
                     | _ => ret found
                     end ;;
          conversation <-
            match conversationId req with
            | Some cid =>
                c <- getEpesiConversation cid ;;
                match c with
                | None => reply (Status 404 "Conversation not found")
                | Some c => ret c
                end
            | None =>
                createEpesiConversation
                  (mkConversation newConversationId numericDashboardId
                     (title (prompt req)) (userId req))
            end ;;
          createEpesiMessage
            (mkMessage (conv_id conversation) user (prompt req) None) ;;;
          if isGreeting (prompt req) then
            createEpesiMessage
              (mkMessage (conv_id conversation) assistant greeting_response
                 None) ;;;
            reply (Json greeting_response [] (conv_id conversation))
          else
            response <-
              call_backend backend
                (mkBackendRequest (prompt req) (firstn 2 sources) 4) ;;
            createEpesiMessage
              (mkMessage (conv_id conversation) assistant
                 (ar_response response) (Some (ar_charts response))) ;;;
            updateEpesiConversation (conv_id conversation)
              (conv_title conversation) ;;;
            reply (Json (ar_response response) (ar_charts response)
                     (conv_id conversation))
      end
  end.

(** The route run on a world: its reply and the world it leaves. *)
Definition handle (backend : Backend) (newConversationId : string)
    (req : ChatRequest) (w : World) : Response * World :=
  match chat backend newConversationId req w with
  | (Continue r, w') => (r, w')
  | (Reply r, w') => (r, w')
  end.

(** The conversation a request is filed under: the stored one it
    names, or the one created under the fresh identifier. *)
Definition files_under (w : World) (req : ChatRequest)
    (newConversationId : string) (cid : string) : Prop :=
  match conversationId req with
  | Some i =>
      exists c,
        find (fun c => String.eqb (conv_id c) i) (conversations w) = Some c /\
        conv_id c = cid
  | None =>
      cid = newConversationId /\
      existsb (fun c => String.eqb (conv_id c) newConversationId)
        (conversations w) = false
  end.



(** *** Sample data *)

Definition long_prompt : jsstring :=
  js "Show me sales by region across all quarters for the last two years".

Definition sample_world : World :=
  mkWorld [mkDashboard 7 (Some 1)] [] [] [] [].

(** A backend that always answers, with one chart. *)
Definition sample_backend : Backend :=
  fun _ => inl (mkAgentResponse (js "Here are your charts") [Js.JNull]).

End EpesiAgent.

(** ** Chart payload reconciliation

    The two [transformChartData] helpers of the client.  A result of
    [None] is a [TypeError] thrown on the way. *)

Module Charts.

Import Js.

(** [v.map((x, index) => f x index)] on a truthy [v]: only an array has
    a [map] to call. *)
Definition js_map (v : JsValue) (f : JsValue -> nat -> option JsValue)
    : option JsValue :=
  match v with
  | JArr items =>
      match mapi_opt_from f 0 items with
      | Some out => Some (JArr out)
      | None => None
      end
  | _ => None
  end.

Definition bind {A B : Type} (m : option A) (k : A -> option B) : option B :=
  match m with
  | Some a => k a
  | None => None
  end.

Notation "x <- m ;; k" := (bind m (fun x => k))
  (at level 61, m at next level, right associativity).

(** [{ name: label, value: data[index] || 0 }]. *)
Definition zip_entry (data : JsValue) (label : JsValue) (i : nat)
    : option JsValue :=
  v <- index data i ;; Some (entry label (or_else v (JNum 0))).

(** [transformChartData] of [smart-insights-modal.tsx]. *)
Module SmartInsights.

Definition transformChartData (chartPayload : JsValue) : option JsValue :=
  if negb (truthy chartPayload) then Some (JArr [])
  else
    labels <- prop chartPayload "labels" ;;
    datasets <- prop chartPayload "datasets" ;;
    if truthy labels && truthy datasets then
      dataset <- index datasets 0 ;;
      if negb (truthy dataset) then Some (JArr [])
      else
        data <- prop dataset "data" ;;
        if negb (truthy data) then Some (JArr [])
        else js_map labels (zip_entry data)
    else
      series <- prop chartPayload "series" ;;
      if negb (truthy series) then Some (JArr [])
      else
        series0 <- index series 0 ;;
        if negb (truthy series0) then Some (JArr [])
        else
          xAxis <- prop chartPayload "xAxis" ;;
          categories0 <- opt_prop xAxis "categories" ;;
          let categories := or_else categories0 (JArr []) in
          data0 <- prop series0 "data" ;;
          let data := or_else data0 (JArr []) in
          js_map categories (zip_entry data).

End SmartInsights.

(** [transformChartData] of the AI block ([draggable-toolbar.tsx]). *)
Module AIBlock.

(** [`Item ${index + 1}`]. *)
Definition item_label (i : nat) : JsValue :=
  JStr ("Item " ++ decimal (S i))%string.

Definition transformChartData (data : JsValue) : option JsValue :=
  if negb (truthy data) then Some (JArr [])
  else
    len <- length_of data ;;
    first <- index data 0 ;;
    already <-
      (if isArray data && positive len && typeof_object first
       then has_name first else Some false) ;;
    if already then Some data
    else
      labels <- prop data "labels" ;;
      datasets <- prop data "datasets" ;;
      chartjs <-
        (if truthy labels && truthy datasets
         then n <- length_of datasets ;; Some (positive n)
         else Some false) ;;
      if chartjs then
        dataset <- index datasets 0 ;;
        values <- prop dataset "data" ;;
        js_map labels
          (fun label i =>
             v <- index values i ;; Some (entry label (or_else v (JNum 0))))
      else if isArray data && positive len && typeof_number first then
        js_map data (fun value i => Some (entry (item_label i) value))
      else Some (JArr []).

End AIBlock.

(** *** The two wire shapes *)

(** [{ labels, datasets: [{ data }] }]. *)
Definition labeled_series (labels values : list JsValue) : JsValue :=
  JObj [("labels", JArr labels);
        ("datasets", JArr [JObj [("data", JArr values)]])].

(** [{ xAxis: { categories }, series: [{ data }] }]. *)
Definition category_series (categories values : list JsValue) : JsValue :=
  JObj [("xAxis", JObj [("categories", JArr categories)]);
        ("series", JArr [JObj [("data", JArr values)]])].

(** What both shapes come to: one entry per label, in order, with the
    value at the same index, or 0 where that value is falsy or
    missing. *)
Definition zipped (labels values : list JsValue) : list JsValue :=
  mapi (fun label i => entry label (or_else (nth i values JUndefined) (JNum 0)))
    labels.



End Charts.

(* ================================================================== *)
(** * Part II: properties *)
(* ================================================================== *)

(** ** Dense position lists *)

Section DenseLists.

Import Blocks.

Lemma dense_nil : dense [].
Proof.
  split; [constructor|]. intros z; simpl; lia.
Qed.

Lemma in_range_seq (n : nat) (z : Z) :
  0 <= z < Z.of_nat n -> In z (map Z.of_nat (seq 0 n)).
Proof.
  intros Hz. apply in_map_iff. exists (Z.to_nat z). split; [lia|].
  apply in_seq. lia.
Qed.

(** Pigeonhole: a duplicate-free list of [N] values below [N] holds each
    of them. *)
Lemma dense_bounded (ps : list Z) :
  dense ps <->
  NoDup ps /\ (forall z, In z ps -> 0 <= z < Z.of_nat (List.length ps)).
Proof.
  split.
  - intros [Hnd Hin]. split; [exact Hnd|]. intros z Hz. now apply Hin.
  - intros [Hnd Hb]. split; [exact Hnd|]. intros z. split; [apply Hb|].
    intros Hz.
    assert (Hincl : incl (map Z.of_nat (seq 0 (List.length ps))) ps).
    { apply NoDup_length_incl; [exact Hnd| |].
      - rewrite length_map, length_seq. lia.
      - intros y Hy. apply in_range_seq. now apply Hb. }
    apply Hincl. now apply in_range_seq.
Qed.

Lemma NoDup_map_inj {A B : Type} (f : A -> B) (l : list A) :
  (forall x y, In x l -> In y l -> f x = f y -> x = y) ->
  NoDup l -> NoDup (map f l).
Proof.
  induction l as [|a l IH]; intros Hinj Hnd; simpl; [constructor|].
  inversion Hnd as [|? ? Hnotin Hnd']; subst. constructor.
  - intros Hin. apply in_map_iff in Hin. destruct Hin as [x [Hfx Hx]].
    assert (x = a) by (apply Hinj; simpl; auto). subst. contradiction.
  - apply IH; [|exact Hnd']. intros x y Hx Hy. apply Hinj; simpl; auto.
Qed.

Lemma NoDup_map_eq {A B : Type} (f : A -> B) (l : list A) (x y : A) :
  NoDup (map f l) -> In x l -> In y l -> f x = f y -> x = y.
Proof.
  induction l as [|a l IH]; simpl; intros Hnd Hx Hy Hf; [contradiction|].
  inversion Hnd as [|? ? Hnotin Hnd']; subst.
  destruct Hx as [Hx|Hx], Hy as [Hy|Hy]; subst; auto.
  - exfalso. apply Hnotin. rewrite Hf. now apply in_map.
  - exfalso. apply Hnotin. rewrite <- Hf. now apply in_map.
Qed.

(** A map that is injective on a dense list and stays below its length
    keeps it dense. *)
Lemma dense_map (h : Z -> Z) (ps : list Z) :
  dense ps ->
  (forall x y, In x ps -> In y ps -> h x = h y -> x = y) ->
  (forall x, In x ps -> 0 <= h x < Z.of_nat (List.length ps)) ->
  dense (map h ps).
Proof.
  intros [Hnd _] Hinj Hb. apply dense_bounded. split.
  - now apply NoDup_map_inj.
  - intros z Hz. apply in_map_iff in Hz. destruct Hz as [x [<- Hx]].
    rewrite length_map. now apply Hb.
Qed.

(** The same with one more position [p], outside the image. *)
Lemma dense_map_snoc (h : Z -> Z) (ps : list Z) (p : Z) :
  dense ps ->
  (forall x y, In x ps -> In y ps -> h x = h y -> x = y) ->
  (forall x, In x ps -> 0 <= h x <= Z.of_nat (List.length ps)) ->
  (forall x, In x ps -> h x <> p) ->
  0 <= p <= Z.of_nat (List.length ps) ->
  dense (map h ps ++ [p]).
Proof.
  intros [Hnd _] Hinj Hb Hp Hpr. apply dense_bounded. split.
  - apply NoDup_app; [now apply NoDup_map_inj | repeat constructor; auto |].
    intros z Hz [<-|[]]. apply in_map_iff in Hz.
    destruct Hz as [x [Hx Hin]]. now apply (Hp x).
  - intros z Hz. rewrite length_app, length_map. simpl.
    apply in_app_iff in Hz. destruct Hz as [Hz|[<-|[]]]; [|lia].
    apply in_map_iff in Hz. destruct Hz as [x [<- Hx]].
    specialize (Hb x Hx). lia.
Qed.

Lemma dense_length_in (ps : list Z) (z : Z) :
  dense ps -> In z ps -> 0 <= z < Z.of_nat (List.length ps).
Proof. intros [_ H] Hz. now apply H. Qed.

End DenseLists.

(** ** Positions under the SQL statements *)

Section TableFacts.

Import Blocks.

Lemma has_id_true (i : string) (b : Block) : has_id i b = true <-> id b = i.
Proof. unfold has_id. apply String.eqb_eq. Qed.

Lemma has_id_false (i : string) (b : Block) : has_id i b = false <-> id b <> i.
Proof. unfold has_id. apply String.eqb_neq. Qed.

Lemma in_dashboard_true (d : Z) (b : Block) :
  in_dashboard d b = true <-> dashboardId b = d.
Proof. unfold in_dashboard. apply Z.eqb_eq. Qed.

Lemma filter_map_same {A : Type} (p : A -> bool) (F : A -> A) (t : list A) :
  (forall b, p (F b) = p b) ->
  filter p (map F t) = map F (filter p t).
Proof.
  intros HF. induction t as [|a t IH]; simpl; [reflexivity|].
  rewrite HF. destruct (p a); simpl; now rewrite IH.
Qed.

(** A row-wise rewrite that keeps every row in its dashboard and acts on
    the positions of dashboard [d] as [h]. *)
Lemma positions_map (d : Z) (F : Block -> Block) (h : Z -> Z) (db : Db) :
  (forall b, dashboardId (F b) = dashboardId b) ->
  (forall b, In b (blocks db) -> dashboardId b = d ->
             position (F b) = h (position b)) ->
  positions d (with_blocks db (map F (blocks db))) = map h (positions d db).
Proof.
  intros Hd Hp. unfold positions. simpl.
  rewrite filter_map_same
    by (intros b; unfold in_dashboard; now rewrite Hd).
  rewrite !map_map. apply map_ext_in. intros b Hb.
  apply filter_In in Hb. destruct Hb as [Hb Hin].
  apply Hp; [exact Hb|]. now apply in_dashboard_true.
Qed.

Lemma positions_map_id (d : Z) (F : Block -> Block) (db : Db) :
  (forall b, dashboardId (F b) = dashboardId b) ->
  (forall b, In b (blocks db) -> dashboardId b = d ->
             position (F b) = position b) ->
  positions d (with_blocks db (map F (blocks db))) = positions d db.
Proof.
  intros Hd Hp.
  rewrite (positions_map d F (fun z => z)) by assumption.
  apply map_id.
Qed.

Lemma ids_map (F : Block -> Block) (t : list Block) :
  (forall b, id (F b) = id b) -> map id (map F t) = map id t.
Proof.
  intros HF. rewrite map_map. apply map_ext. exact HF.
Qed.

Lemma positions_snoc (d : Z) (db : Db) (t : list Block) (b : Block) :
  positions d (with_blocks db (t ++ [b])) =
  positions d (with_blocks db t) ++
  (if in_dashboard d b then [position b] else []).
Proof.
  unfold positions. simpl. rewrite filter_app, map_app. simpl.
  now destruct (in_dashboard d b).
Qed.

Lemma sql_get_some (i : string) (t : list Block) (b : Block) :
  sql_get (has_id i) t = Some b -> In b t /\ id b = i.
Proof.
  unfold sql_get. intros H. apply find_some in H.
  destruct H as [Hin Hid]. split; [exact Hin|]. now apply has_id_true.
Qed.

Lemma sql_get_none (i : string) (t : list Block) :
  sql_get (has_id i) t = None -> ~ In i (map id t).
Proof.
  unfold sql_get. intros H Hin. apply in_map_iff in Hin.
  destruct Hin as [b [Hid Hb]].
  pose proof (find_none _ _ H b Hb) as Hf.
  apply has_id_false in Hf. contradiction.
Qed.

(** Under the primary key, an identifier names one row. *)
Lemma id_unique (t : list Block) (a b : Block) :
  NoDup (map id t) -> In a t -> In b t -> id a = id b -> a = b.
Proof. intros Hnd. now apply NoDup_map_eq. Qed.

(** Deleting by identifier takes out exactly the row of that
    identifier. *)
Lemma delete_permutation (t : list Block) (b : Block) :
  NoDup (map id t) -> In b t ->
  Permutation t (b :: sql_delete (has_id (id b)) t).
Proof.
  unfold sql_delete.
  induction t as [|a t IH]; simpl; intros Hnd Hin; [contradiction|].
  inversion Hnd as [|? ? Hnotin Hnd']; subst.
  destruct Hin as [->|Hin].
  - assert (Hrefl : has_id (id b) b = true) by now apply has_id_true.
    rewrite Hrefl. simpl. constructor.
    assert (Hsame : filter (fun x => negb (has_id (id b) x)) t = t).
    { apply forallb_filter_id. apply forallb_forall. intros x Hx.
      apply negb_true_iff. apply has_id_false. intros Heq.
      apply Hnotin. rewrite <- Heq. now apply in_map. }
    now rewrite Hsame.
  - assert (Hne : has_id (id b) a = false).
    { apply has_id_false. intros Heq. apply Hnotin. rewrite Heq.
      now apply in_map. }
    rewrite Hne. simpl.
    eapply perm_trans; [apply perm_skip, IH; assumption|]. apply perm_swap.
Qed.


Lemma positions_permutation (d : Z) (db : Db) (t t' : list Block) :
  Permutation t t' ->
  Permutation (positions d (with_blocks db t)) (positions d (with_blocks db t')).
Proof.
  intros HP. unfold positions. simpl. apply Permutation_map.
  induction HP; simpl.
  - constructor.
  - destruct (in_dashboard d x); [now constructor | assumption].
  - destruct (in_dashboard d x), (in_dashboard d y);
      try apply perm_swap; apply Permutation_refl.
  - eapply perm_trans; eassumption.
Qed.

End TableFacts.

(** ** Integrity constraints are kept *)

Section WellFormed.

Import Blocks.

Lemma wf_map (F : Block -> Block) (db : Db) :
  (forall b, id (F b) = id b) ->
  (forall b, dashboardId (F b) = dashboardId b) ->
  well_formed db -> well_formed (with_blocks db (map F (blocks db))).
Proof.
  intros Hi Hd [Hnd Hfk]. split; simpl.
  - now rewrite ids_map.
  - intros b Hb. apply in_map_iff in Hb. destruct Hb as [a [<- Ha]].
    rewrite Hd. exact (Hfk a Ha).
Qed.

Lemma wf_update (wh : Block -> bool) (set : Block -> Block) (db : Db) :
  (forall b, id (set b) = id b) ->
  (forall b, dashboardId (set b) = dashboardId b) ->
  well_formed db -> well_formed (with_blocks db (sql_update wh set (blocks db))).
Proof.
  intros Hi Hd. unfold sql_update. apply wf_map.
  - intros b. destruct (wh b); auto.
  - intros b. destruct (wh b); auto.
Qed.


Lemma sql_insert_some (b : Block) (db db' : Db) :
  sql_insert b db = Some db' ->
  db' = with_blocks db (blocks db ++ [b]) /\
  ~ In (id b) (map id (blocks db)) /\
  dashboard_exists (dashboardId b) db = true.
Proof.
  unfold sql_insert.
  destruct (existsb (has_id (id b)) (blocks db)) eqn:He; [discriminate|].
  destruct (dashboard_exists (dashboardId b) db) eqn:Hd; simpl;
    [|discriminate].
  intros H. inversion H; subst. repeat split.
  intros Hin. apply in_map_iff in Hin. destruct Hin as [x [Hx Hin]].
  assert (Ht : existsb (has_id (id b)) (blocks db) = true).
  { apply existsb_exists. exists x. split; [exact Hin|].
    now apply has_id_true. }
  congruence.
Qed.

Lemma sql_insert_fresh (b : Block) (db : Db) :
  ~ In (id b) (map id (blocks db)) ->
  dashboard_exists (dashboardId b) db = true ->
  sql_insert b db = Some (with_blocks db (blocks db ++ [b])).
Proof.
  intros Hf Hd. unfold sql_insert.
  destruct (existsb (has_id (id b)) (blocks db)) eqn:He.
  - exfalso. apply existsb_exists in He. destruct He as [x [Hx Hid]].
    apply Hf. apply has_id_true in Hid. rewrite <- Hid. now apply in_map.
  - now rewrite Hd.
Qed.

Lemma wf_insert (b : Block) (db db' : Db) :
  well_formed db -> sql_insert b db = Some db' -> well_formed db'.
Proof.
  intros [Hnd Hfk] H. apply sql_insert_some in H.
  destruct H as [-> [Hfresh Hex]]. split; simpl.
  - rewrite map_app. simpl. apply NoDup_app; [exact Hnd | |].
    + repeat constructor. intros [].
    + intros x Hx [<-|[]]. contradiction.
  - intros x Hx. apply in_app_iff in Hx. destruct Hx as [Hx|[<-|[]]].
    + exact (Hfk x Hx).
    + exact Hex.
Qed.

End WellFormed.

(** ** Creating a block through the applet router *)

Section AppletCreate.

Import Blocks.




(** With an explicit position the handler shifts and then inserts. *)
Lemma applet_create_explicit (newId : string) (d p : Z) (req : BlockReq)
    (db : Db) :
  dashboard_exists d db = true ->
  fresh newId db ->
  r_position req = PosNum p ->
  Applet.createBlock newId d req db =
  Success
    (with_blocks db
       (map (shift_right d p) (blocks db) ++
        [mkBlock newId d (str_or (r_title req) "Untitled Block")
           (str_or (r_type req) "ai") (num_or (r_size req) 4) p])).
Proof.
  intros Hex Hfresh Hpos. unfold Applet.createBlock.
  rewrite Hex, Hpos. simpl negb. cbv iota. cbv beta zeta.
  rewrite sql_insert_fresh.
  - reflexivity.
  - simpl. unfold sql_update. rewrite ids_map; [exact Hfresh|].
    intros b. now destruct (_ && _).
  - exact Hex.
Qed.





End AppletCreate.

(** ** Moving a block through the applet router *)

Section AppletMove.

Import Blocks.

Ltac zcases :=
  repeat match goal with
         | |- context [?a =? ?b] => destruct (Z.eqb_spec a b)
         | |- context [?a <? ?b] => destruct (Z.ltb_spec a b)
         | |- context [?a <=? ?b] => destruct (Z.leb_spec a b)
         | H : context [?a =? ?b] |- _ => destruct (Z.eqb_spec a b)
         | H : context [?a <? ?b] |- _ => destruct (Z.ltb_spec a b)
         | H : context [?a <=? ?b] |- _ => destruct (Z.leb_spec a b)
         end; simpl in *.

Lemma move_position_bound (n old p z : Z) :
  0 <= old < n -> 0 <= p < n -> 0 <= z < n ->
  0 <= move_position old p z < n.
Proof. intros Ho Hp Hz. unfold move_position. zcases; lia. Qed.

Lemma move_position_inj (old p x y : Z) :
  move_position old p x = move_position old p y -> x = y.
Proof. unfold move_position. intros H. zcases; lia. Qed.

(** The handler as one row-wise rewrite. *)
Lemma applet_update_rows (i : string) (req : BlockReq) (db : Db)
    (block : Block) :
  sql_get (has_id i) (blocks db) = Some block ->
  exists F : Block -> Block,
    Applet.updateBlock i req db = Success (with_blocks db (map F (blocks db))) /\
    (forall b, id (F b) = id b) /\
    (forall b, dashboardId (F b) = dashboardId b) /\
    (forall b,
       position (F b) =
       match r_position req with
       | PosNum p =>
           if has_id i b then p
           else if in_dashboard (dashboardId block) b
                   && negb (position b =? position block)
                then move_position (position block) p (position b)
                else position b
       | _ => position b
       end).
Proof.
  intros Hget. unfold Applet.updateBlock. rewrite Hget.
  destruct (r_position req) as [| |p] eqn:Hpos.
  - exists (fun b => if has_id i b then update_row req None b else b).
    split; [reflexivity|].
    repeat split; intros b; destruct (has_id i b); reflexivity.
  - exists (fun b => if has_id i b then update_row req None b else b).
    split; [reflexivity|].
    repeat split; intros b; destruct (has_id i b); reflexivity.
  - destruct (Z.eqb_spec p (position block)) as [Heq|Hne].
    + exists (fun b => if has_id i b then update_row req (Some p) b else b).
      split; [reflexivity|].
      repeat split; intros b; destruct (has_id i b) eqn:Hi; try reflexivity.
      unfold move_position.
      destruct (in_dashboard (dashboardId block) b); [|reflexivity].
      subst p. zcases; lia.
    + destruct (Z.ltb_spec (position block) p) as [Hlt|Hge].
      * exists (fun b =>
                  let b1 :=
                    if in_dashboard (dashboardId block) b
                       && (position block <? position b)
                       && (position b <=? p)
                    then set_position (position b - 1) b else b in
                  if has_id i b1 then update_row req (Some p) b1 else b1).
        split; [unfold sql_update; now rewrite map_map|].
        repeat split; intros b; cbv zeta;
          destruct (in_dashboard (dashboardId block) b);
          destruct (position block <? position b) eqn:E1;
          destruct (position b <=? p) eqn:E2;
          unfold has_id; simpl;
          destruct (String.eqb (id b) i); simpl; try reflexivity;
          unfold move_position; rewrite ?E1, ?E2; zcases; lia || reflexivity.
      * exists (fun b =>
                  let b1 :=
                    if in_dashboard (dashboardId block) b
                       && (p <=? position b)
                       && (position b <? position block)
                    then set_position (position b + 1) b else b in
                  if has_id i b1 then update_row req (Some p) b1 else b1).
        split; [unfold sql_update; now rewrite map_map|].
        repeat split; intros b; cbv zeta;
          destruct (in_dashboard (dashboardId block) b);
          destruct (p <=? position b) eqn:E1;
          destruct (position b <? position block) eqn:E2;
          unfold has_id; simpl;
          destruct (String.eqb (id b) i); simpl; try reflexivity;
          unfold move_position; rewrite ?E1, ?E2; zcases; lia || reflexivity.
Qed.

End AppletMove.

(** ** The reorder loop *)

Section Reorder.

Import Blocks.

Lemma storage_reorder_from (d i : Z) (o : list string) (t : list Block) :
  Storage.reorder_from d i o t = Applet.reorder_from d i o t.
Proof.
  revert i t. induction o as [|x o IH]; intros i t; simpl; [reflexivity|].
  apply IH.
Qed.

(** The loop rewrites every row on its own. *)
Lemma reorder_from_rows (d i : Z) (o : list string) (t : list Block) :
  Applet.reorder_from d i o t = map (reorder_row d i o) t.
Proof.
  revert i t. induction o as [|x o IH]; intros i t; simpl.
  - symmetry. apply map_id.
  - rewrite IH. unfold sql_update. now rewrite map_map.
Qed.

Lemma set_position_twice (p q : Z) (b : Block) :
  set_position p (set_position q b) = set_position p b.
Proof. reflexivity. Qed.

(** A row of the dashboard takes the index of the last occurrence of its
    identifier; every other row is left as it is. *)
Lemma reorder_row_spec (d i : Z) (o : list string) (b : Block) :
  reorder_row d i o b =
  if in_dashboard d b then
    match last_index_from i (id b) o with
    | Some k => set_position k b
    | None => b
    end
  else b.
Proof.
  revert i b. induction o as [|x o IH]; intros i b; simpl.
  - now destruct (in_dashboard d b).
  - rewrite IH. unfold has_id.
    destruct (in_dashboard d b) eqn:Hd.
    + rewrite andb_true_r.
      destruct (String.eqb (id b) x) eqn:Hx.
      * unfold in_dashboard in *. simpl. rewrite Hd.
        destruct (last_index_from (i + 1) (id b) o); reflexivity.
      * rewrite Hd. destruct (last_index_from (i + 1) (id b) o); reflexivity.
    + rewrite andb_false_r. now rewrite Hd.
Qed.

Lemma reorder_row_id d i o b : id (reorder_row d i o b) = id b.
Proof.
  rewrite reorder_row_spec. destruct (in_dashboard d b); [|reflexivity].
  now destruct (last_index_from i (id b) o).
Qed.

Lemma reorder_row_dashboard d i o b :
  dashboardId (reorder_row d i o b) = dashboardId b.
Proof.
  rewrite reorder_row_spec. destruct (in_dashboard d b); [|reflexivity].
  now destruct (last_index_from i (id b) o).
Qed.

Lemma last_index_some (i : Z) (x : string) (o : list string) (k : Z) :
  last_index_from i x o = Some k ->
  i <= k < i + Z.of_nat (List.length o) /\
  nth_error o (Z.to_nat (k - i)) = Some x.
Proof.
  revert i. induction o as [|y o IH]; intros i; simpl; [discriminate|].
  destruct (last_index_from (i + 1) x o) as [k'|] eqn:Hl.
  - intros H. inversion H; subst k'. destruct (IH _ Hl) as [Hr Hn].
    split; [lia|].
    replace (Z.to_nat (k - i)) with (S (Z.to_nat (k - (i + 1)))) by lia.
    exact Hn.
  - destruct (String.eqb_spec x y) as [->|Hne]; [|discriminate].
    intros H. inversion H; subst k. split; [lia|].
    now rewrite Z.sub_diag.
Qed.

Lemma last_index_none (i : Z) (x : string) (o : list string) :
  last_index_from i x o = None <-> ~ In x o.
Proof.
  revert i. induction o as [|y o IH]; intros i; simpl; [tauto|].
  destruct (last_index_from (i + 1) x o) as [k'|] eqn:Hl.
  - split; [discriminate|]. intros Hn. exfalso. apply Hn. right.
    destruct (in_dec string_dec x o) as [Hin|Hnin]; [exact Hin|].
    apply (IH (i + 1)) in Hnin. congruence.
  - apply IH in Hl. destruct (String.eqb_spec x y) as [->|Hne].
    + split; [discriminate|]. intros Hn. exfalso. apply Hn. now left.
    + split; [|reflexivity]. intros _ [Heq|Hin]; [congruence|contradiction].
Qed.

(** In a list without repetition the last occurrence is the
    occurrence. *)
Lemma last_index_nodup (i : Z) (x : string) (o : list string) (n : nat) :
  NoDup o -> nth_error o n = Some x ->
  last_index_from i x o = Some (i + Z.of_nat n).
Proof.
  intros Hnd Hn.
  destruct (last_index_from i x o) as [k|] eqn:Hl.
  - apply last_index_some in Hl. destruct Hl as [Hr Hk].
    f_equal.
    assert (Z.to_nat (k - i) = n).
    { apply (proj1 (NoDup_nth_error o) Hnd).
      - apply nth_error_Some. congruence.
      - congruence. }
    lia.
  - apply last_index_none in Hl. exfalso. apply Hl.
    eapply nth_error_In; eassumption.
Qed.

Lemma positions_rows (d : Z) (F : Block -> Block) (db : Db) :
  (forall b, dashboardId (F b) = dashboardId b) ->
  positions d (with_blocks db (map F (blocks db))) =
  map (fun b => position (F b)) (filter (in_dashboard d) (blocks db)).
Proof.
  intros Hd. unfold positions. simpl.
  rewrite filter_map_same
    by (intros b; unfold in_dashboard; now rewrite Hd).
  now rewrite map_map.
Qed.


End Reorder.

(** ** Deleting a block *)

Section Delete.

Import Blocks.

Lemma dense_perm (ps ps' : list Z) :
  Permutation ps ps' -> dense ps -> dense ps'.
Proof.
  intros HP [Hnd Hin]. split.
  - eapply Permutation_NoDup; eassumption.
  - intros z. rewrite <- (Permutation_length HP). rewrite <- Hin.
    split; apply Permutation_in; [apply Permutation_sym|]; exact HP.
Qed.

(** Taking one position [p] out of a dense list leaves the others as
    they were: every position of [0 .. N-1] but [p]. *)
Lemma dense_without (ps ps' : list Z) (p : Z) :
  Permutation ps (p :: ps') -> dense ps ->
  NoDup ps' /\
  forall z, In z ps' <-> 0 <= z < Z.of_nat (List.length ps) /\ z <> p.
Proof.
  intros HP Hd. apply (dense_perm _ _ HP) in Hd.
  rewrite (Permutation_length HP). destruct Hd as [Hnd Hin].
  inversion Hnd as [|? ? Hnotin Hnd']; subst. split; [exact Hnd'|].
  intros z. rewrite <- Hin. simpl. split.
  - intros Hz. split; [now right|]. intros ->. contradiction.
  - intros [[Heq|Hz] Hne]; [congruence | exact Hz].
Qed.

Lemma delete_positions (d : Z) (db : Db) (b : Block) :
  well_formed db -> In b (blocks db) ->
  Permutation (positions d db)
    ((if in_dashboard d b then [position b] else []) ++
     positions d (with_blocks db (sql_delete (has_id (id b)) (blocks db)))).
Proof.
  intros [Hnd _] Hb.
  pose proof (positions_permutation d db _ _
                (delete_permutation (blocks db) b Hnd Hb)) as HP.
  unfold positions in *. simpl in *.
  destruct (in_dashboard d b); exact HP.
Qed.


End Delete.

(** ** Creating a block through [server/routes.ts] *)

Section RoutesCreate.

Import Blocks.

Lemma insert_by_position_perm (b : Block) (l : list Block) :
  Permutation (Storage.insert_by_position b l) (b :: l).
Proof.
  induction l as [|x l IH]; simpl; [apply Permutation_refl|].
  destruct (position b <? position x); [apply Permutation_refl|].
  eapply perm_trans; [apply perm_skip, IH | apply perm_swap].
Qed.

Lemma order_by_position_perm (l : list Block) :
  Permutation (Storage.order_by_position l) l.
Proof.
  unfold Storage.order_by_position.
  induction l as [|x l IH]; simpl; [constructor|].
  eapply perm_trans; [apply insert_by_position_perm|]. now constructor.
Qed.


Lemma bump_row_id (l : list Block) (b : Block) : id (bump_row l b) = id b.
Proof.
  unfold bump_row. revert b. induction l as [|e l IH]; intros b; simpl;
    [reflexivity|].
  rewrite IH. now destruct (has_id (id e) b).
Qed.

Lemma bump_row_dashboard (l : list Block) (b : Block) :
  dashboardId (bump_row l b) = dashboardId b.
Proof.
  unfold bump_row. revert b. induction l as [|e l IH]; intros b; simpl;
    [reflexivity|].
  rewrite IH. now destruct (has_id (id e) b).
Qed.





End RoutesCreate.

(** ** Every admissible request keeps the invariant *)

Section StepInvariant.

Import Blocks.


Lemma wf_same_blocks (db : Db) :
  well_formed db -> well_formed (with_blocks db (blocks db)).
Proof. intros H. exact H. Qed.

(** Rewriting the rows of dashboard [d] by [h] and adding a row at [p]. *)
Lemma insert_keeps_dense (d p : Z) (h : Z -> Z) (F : Block -> Block)
    (new : Block) (db : Db) :
  all_dense db ->
  (forall b, dashboardId (F b) = dashboardId b) ->
  (forall b, dashboardId b = d -> position (F b) = h (position b)) ->
  (forall b, dashboardId b <> d -> position (F b) = position b) ->
  dashboardId new = d -> position new = p ->
  (forall x y, 0 <= x -> 0 <= y -> h x = h y -> x = y) ->
  (forall x, 0 <= x < block_count d db ->
             0 <= h x <= block_count d db /\ h x <> p) ->
  0 <= p <= block_count d db ->
  all_dense (with_blocks db (map F (blocks db) ++ [new])).
Proof.
  intros Hall Hd Hh Hother Hnd Hnp Hinj Hrange Hp d'.
  rewrite positions_snoc.
  destruct (Z.eq_dec d' d) as [->|Hne].
  - assert (Hin : in_dashboard d new = true) by now apply in_dashboard_true.
    rewrite Hin, Hnp.
    rewrite (positions_map d F h) by (auto; intros; now apply Hh).
    pose proof (Hall d) as Hdd. unfold block_count in *.
    apply dense_map_snoc; auto.
    + intros x y Hx Hy. apply Hinj.
      * apply (dense_length_in _ _ Hdd Hx).
      * apply (dense_length_in _ _ Hdd Hy).
    + intros x Hx. apply Hrange. now apply dense_length_in.
    + intros x Hx. apply Hrange. now apply dense_length_in.
  - assert (Hin : in_dashboard d' new = false).
    { unfold in_dashboard. apply Z.eqb_neq. congruence. }
    rewrite Hin, app_nil_r.
    rewrite positions_map_id; auto.
    intros b _ Hb. apply Hother. congruence.
Qed.

Lemma wf_snoc (F : Block -> Block) (new : Block) (db : Db) :
  (forall b, id (F b) = id b) ->
  (forall b, dashboardId (F b) = dashboardId b) ->
  well_formed db -> fresh (id new) db ->
  dashboard_exists (dashboardId new) db = true ->
  well_formed (with_blocks db (map F (blocks db) ++ [new])).
Proof.
  intros Hi Hd Hwf Hfresh Hex.
  apply (wf_insert new (with_blocks db (map F (blocks db)))).
  - now apply wf_map.
  - apply sql_insert_fresh; [|exact Hex].
    simpl. now rewrite ids_map.
Qed.



End StepInvariant.

Section StepInvariantMore.

Import Blocks.






End StepInvariantMore.

(** ** The position engine: results *)

Section PositionEngine.

Import Blocks.

Lemma not_dense_skip (ps : list Z) (z : Z) :
  0 <= z < Z.of_nat (List.length ps) -> ~ In z ps -> ~ dense ps.
Proof. intros Hz Hn [_ Hd]. apply Hn. now apply Hd. Qed.

Lemma not_dense_dup (ps : list Z) : ~ NoDup ps -> ~ dense ps.
Proof. intros Hn [Hd _]. contradiction. Qed.



(** Each side condition is needed: a create beyond the end, a move
    beyond the end, a move through [server/routes.ts] and an append to
    a one-block dashboard through the applet router all leave a
    dashboard that is not dense. *)
Example density_lost_by_far_insert :
  positions 1
    (run [AppletCreate "n" 1 (req_at (PosNum 5))] three_blocks)
  = [0; 1; 2; 5].
Proof. reflexivity. Qed.

Example density_lost_by_far_move :
  positions 1 (run [AppletUpdate "a" (req_at (PosNum 7))] three_blocks)
  = [7; 0; 1].
Proof. reflexivity. Qed.

Example density_lost_by_routes_move :
  positions 1 (run [RoutesUpdate "a" (req_at (PosNum 2))] three_blocks)
  = [2; 1; 2].
Proof. reflexivity. Qed.

Example applet_append_to_single_block :
  id_positions
    (run [AppletCreate "a" 1 (req_at PosUndefined);
          AppletCreate "b" 1 (req_at PosUndefined)] empty_db)
  = [("a", 0); ("b", 0)].
Proof. reflexivity. Qed.






(** C2, as stated, fails on Scenario B: after the block at position 1 is
    deleted from positions [0, 1, 2, 3], through either handler, the
    survivors still sit at [0, 2, 3]; nothing is re-sequenced. *)
Lemma delete_scenario_B_leaves_gap :
  positions 1 (db_after four_blocks (Applet.deleteBlock "b" four_blocks))
    = [0; 2; 3] /\
  positions 1 (db_after four_blocks (Routes.deleteBlock "b" four_blocks))
    = [0; 2; 3] /\
  ~ dense
      (positions 1 (db_after four_blocks (Applet.deleteBlock "b" four_blocks))).
Proof.
  split; [reflexivity|]. split; [reflexivity|].
  apply (not_dense_skip _ 1); [vm_compute; split; congruence|].
  vm_compute. intros [H|[H|[H|[]]]]; discriminate.
Qed.

(** C2 (amended): deleting a block [b] of a dense dashboard of [N]
    blocks, through either handler, removes the row of [b] and nothing
    else: every other row stays as it was, position included, so the
    survivors occupy, without repetition, the positions of
    [0 .. N-1] other than the former position of [b]. *)
Theorem delete_removes_without_resequencing (db : Db) (b : Block) :
  well_formed db -> In b (blocks db) ->
  dense (positions (dashboardId b) db) ->
  exists db',
    Applet.deleteBlock (id b) db = Success db' /\
    Routes.deleteBlock (id b) db = Success db' /\
    (forall x, In x (blocks db') <-> In x (blocks db) /\ x <> b) /\
    NoDup (positions (dashboardId b) db') /\
    (forall z, In z (positions (dashboardId b) db') <->
               0 <= z < block_count (dashboardId b) db /\ z <> position b).
Proof.
  intros Hwf Hb Hd.
  exists (with_blocks db (sql_delete (has_id (id b)) (blocks db))).
  assert (Hget : exists b', sql_get (has_id (id b)) (blocks db) = Some b').
  { destruct (sql_get (has_id (id b)) (blocks db)) as [b'|] eqn:Hg;
      [now exists b'|].
    apply sql_get_none in Hg. exfalso. apply Hg. now apply in_map. }
  destruct Hget as [b' Hget]. split; [|split; [|split]].
  - unfold Applet.deleteBlock. now rewrite Hget.
  - reflexivity.
  - intros x. simpl. unfold sql_delete. rewrite filter_In.
    rewrite negb_true_iff, has_id_false. split.
    + intros [Hx Hne]. split; [exact Hx|]. congruence.
    + intros [Hx Hne]. split; [exact Hx|]. intros Heq. apply Hne.
      destruct Hwf as [Hnd _]. now apply (id_unique (blocks db)).
  - pose proof (delete_positions (dashboardId b) db b Hwf Hb) as HP.
    assert (Hin : in_dashboard (dashboardId b) b = true)
      by now apply in_dashboard_true.
    rewrite Hin in HP. simpl in HP.
    exact (dense_without _ _ _ HP Hd).
Qed.

Lemma well_formed_four_blocks : well_formed four_blocks.
Proof.
  split.
  - simpl. repeat constructor; simpl; intuition discriminate.
  - intros b Hb. simpl in Hb.
    repeat (destruct Hb as [<-|Hb]; [reflexivity|]). contradiction.
Qed.

Lemma dense_four_blocks : dense (positions 1 four_blocks).
Proof.
  apply dense_bounded. split.
  - simpl. repeat constructor; simpl; intuition discriminate.
  - intros z Hz. simpl in Hz. simpl. lia.
Qed.

Lemma delete_removes_without_resequencing_witness :
  exists db',
    Applet.deleteBlock "b" four_blocks = Success db' /\
    Routes.deleteBlock "b" four_blocks = Success db' /\
    (forall x, In x (blocks db') <->
               In x (blocks four_blocks) /\ x <> mkBlock "b" 1 "B" "chart" 4 1) /\
    NoDup (positions 1 db') /\
    (forall z, In z (positions 1 db') <-> 0 <= z < 4 /\ z <> 1).
Proof.
  apply (delete_removes_without_resequencing four_blocks
           (mkBlock "b" 1 "B" "chart" 4 1)).
  - exact well_formed_four_blocks.
  - simpl. auto.
  - exact dense_four_blocks.
Defined.

(** With an explicit position the handler of [server/routes.ts] inserts
    the row and touches no other. *)
Lemma routes_create_explicit (blockId : string) (d p : Z) (req : BlockReq)
    (db : Db) :
  dashboard_exists d db = true -> fresh blockId db ->
  r_position req = PosNum p ->
  Routes.createBlock blockId d req db =
  Success
    (with_blocks db
       (blocks db ++
        [mkBlock blockId d (str_or (r_title req) "New Block")
           (str_or (r_type req) "ai") (num_or (r_size req) 4) p])).
Proof.
  intros Hex Hfresh Hr. unfold Routes.createBlock, Storage.createBlock.
  rewrite Hr. now rewrite sql_insert_fresh.
Qed.

(** C3 at its failing input: on the positions [0, 1, 2] a create at the
    explicit position 0 through [server/routes.ts] stores the new block
    at 0 and shifts nobody, so two blocks share position 0; the applet
    router, on the same request, shifts the three blocks to
    [1, 2, 3]. *)
Theorem routes_create_at_position_shifts_nobody :
  id_positions
    (db_after three_blocks
       (Routes.createBlock "n" 1 (req_at (PosNum 0)) three_blocks))
    = [("a", 0); ("b", 1); ("c", 2); ("n", 0)] /\
  ~ dense
      (positions 1
         (db_after three_blocks
            (Routes.createBlock "n" 1 (req_at (PosNum 0)) three_blocks))) /\
  id_positions
    (db_after three_blocks
       (Applet.createBlock "n" 1 (req_at (PosNum 0)) three_blocks))
    = [("a", 1); ("b", 2); ("c", 3); ("n", 0)].
Proof.
  split; [reflexivity|]. split; [|reflexivity].
  apply not_dense_dup. vm_compute. intros Hnd.
  inversion Hnd as [|? ? Hnotin _]; subst. apply Hnotin.
  right. right. now left.
Qed.



Lemma well_formed_three_blocks : well_formed three_blocks.
Proof.
  split.
  - simpl. repeat constructor; simpl; intuition discriminate.
  - intros b Hb. simpl in Hb.
    repeat (destruct Hb as [<-|Hb]; [reflexivity|]). contradiction.
Qed.

Lemma dense_three_blocks : dense (positions 1 three_blocks).
Proof.
  apply dense_bounded. split.
  - simpl. repeat constructor; simpl; intuition discriminate.
  - intros z Hz. simpl in Hz. simpl. lia.
Qed.


(** C5, as stated, fails: a list that names one block of the dashboard
    and one identifier that is no block is accepted by both handlers and
    applied, leaving block [c] at position 0 next to block [a]. *)
Lemma reorder_mismatch_is_applied :
  exists db',
    Applet.reorderBlocks 1 ["c"; "x"] three_blocks = Success db' /\
    Routes.reorderBlocks 1 ["c"; "x"] three_blocks = Success db' /\
    id_positions db' = [("a", 0); ("b", 1); ("c", 0)] /\
    db' <> three_blocks.
Proof.
  eexists. split; [reflexivity|]. split; [reflexivity|].
  split; [reflexivity|]. vm_compute. discriminate.
Qed.

(** C5 (amended): a reorder never checks the list against the
    dashboard.  On an existing dashboard both handlers succeed for every
    list; a block of the dashboard whose identifier occurs in the list
    takes the index of the last occurrence (its index, when the list has
    no repetition), and every other row, and every identifier that names
    no block of the dashboard, is passed over. *)
Theorem reorder_applies_any_list (d : Z) (blockOrder : list string)
    (db : Db) :
  dashboard_exists d db = true ->
  exists db',
    Applet.reorderBlocks d blockOrder db = Success db' /\
    Routes.reorderBlocks d blockOrder db = Success db' /\
    blocks db' =
      map (fun b =>
             if in_dashboard d b then
               match last_index_from 0 (id b) blockOrder with
               | Some k => set_position k b
               | None => b
               end
             else b)
          (blocks db) /\
    (NoDup blockOrder ->
     forall b n, In b (blocks db) -> dashboardId b = d ->
                 nth_error blockOrder n = Some (id b) ->
                 In (set_position (Z.of_nat n) b) (blocks db')) /\
    (forall b, In b (blocks db) ->
               dashboardId b <> d \/ ~ In (id b) blockOrder ->
               In b (blocks db')).
Proof.
  intros Hex.
  exists (with_blocks db (Applet.reorder_from d 0 blockOrder (blocks db))).
  assert (Hrows : Applet.reorder_from d 0 blockOrder (blocks db) =
            map (fun b =>
                   if in_dashboard d b then
                     match last_index_from 0 (id b) blockOrder with
                     | Some k => set_position k b
                     | None => b
                     end
                   else b) (blocks db)).
  { rewrite reorder_from_rows. apply map_ext. intros b.
    apply reorder_row_spec. }
  split; [|split; [|split; [|split]]].
  - unfold Applet.reorderBlocks. now rewrite Hex.
  - unfold Routes.reorderBlocks, Storage.reorderBlocks.
    now rewrite storage_reorder_from.
  - exact Hrows.
  - intros Hnd b n Hb Hd Hn. simpl. rewrite Hrows.
    apply in_map_iff. exists b. split; [|exact Hb].
    apply in_dashboard_true in Hd. rewrite Hd.
    now rewrite (last_index_nodup 0 (id b) blockOrder n Hnd Hn).
  - intros b Hb Hor. simpl. rewrite Hrows.
    apply in_map_iff. exists b. split; [|exact Hb].
    destruct (in_dashboard d b) eqn:Hd; [|reflexivity].
    destruct Hor as [Hne|Hni].
    + apply in_dashboard_true in Hd. contradiction.
    + apply (last_index_none 0) in Hni. now rewrite Hni.
Qed.

Lemma reorder_applies_any_list_witness :
  exists db',
    Applet.reorderBlocks 1 ["c"; "x"] three_blocks = Success db' /\
    Routes.reorderBlocks 1 ["c"; "x"] three_blocks = Success db' /\
    id_positions db' = [("a", 0); ("b", 1); ("c", 0)].
Proof.
  destruct (reorder_applies_any_list 1 ["c"; "x"] three_blocks eq_refl)
    as [db' [Ha [Hr [Hb _]]]].
  exists db'. split; [exact Ha|]. split; [exact Hr|].
  unfold id_positions. rewrite Hb. reflexivity.
Defined.

End PositionEngine.

(** ** The chat-history window *)

Section ChatWindow.

Import ChatHistory.

Lemma slice_last_six {A : Type} (l : list A) :
  slice (-6) l = skipn (List.length l - 6) l.
Proof.
  unfold slice. change (-6 <? 0) with true. cbv iota. f_equal. lia.
Qed.

(** The window is cut from the far end of the list the server sends and
    then turned round. *)
Lemma recentHistory_oldest (h : list BlockChatHistory) :
  recentHistory h = firstn 6 (rev h).
Proof.
  unfold recentHistory. rewrite slice_last_six. now rewrite firstn_rev.
Qed.

(** C6 at its failing input: a block with eight turns.  The server lists
    them latest first; the client sends the turns asked at times 1 to 6,
    the oldest first, where the claim has the turns of times 8 down to
    3.  On every history the context is the first six turns of the
    server's list read backwards. *)
Theorem context_window_takes_oldest_turns :
  map generatedAt (getBlockChatHistory "blk" eight_turns)
    = [8; 7; 6; 5; 4; 3; 2; 1] /\
  map generatedAt (context_sent "blk" eight_turns) = [1; 2; 3; 4; 5; 6] /\
  map generatedAt (most_recent_first "blk" eight_turns)
    = [8; 7; 6; 5; 4; 3] /\
  context_sent "blk" eight_turns <> most_recent_first "blk" eight_turns /\
  (forall b table,
     context_sent b table = firstn 6 (List.rev (getBlockChatHistory b table))).
Proof.
  split; [reflexivity|]. split; [reflexivity|]. split; [reflexivity|].
  split.
  - vm_compute. discriminate.
  - intros b table. unfold context_sent. apply recentHistory_oldest.
Qed.

End ChatWindow.

(** ** The Epesi Agent chat route *)

Section EpesiChat.

Import JsStr EpesiAgent.

Lemma title_long (p : jsstring) :
  50 < length p -> title p = firstn 50 p ++ js "...".
Proof.
  intros H. unfold title, substring.
  destruct (Z.ltb_spec 50 (length p)) as [_|]; [|lia].
  assert (H0 : Z.min (Z.max 0 0) (length p) = 0) by lia.
  assert (H50 : Z.min (Z.max 50 0) (length p) = 50) by lia.
  rewrite H0, H50. reflexivity.
Qed.

Lemma title_short (p : jsstring) : length p <= 50 -> title p = p.
Proof.
  intros H. unfold title.
  destruct (Z.ltb_spec 50 (length p)); [lia | reflexivity].
Qed.

Lemma title_long_length (p : jsstring) :
  50 < length p -> length (title p) = 53.
Proof.
  intros H. rewrite title_long by exact H. unfold length in *.
  rewrite length_app, length_firstn.
  change (List.length (js "...")) with 3%nat. lia.
Qed.

Lemma match_literal_whole (pattern input : jsstring) :
  match_literal pattern input = Some [] <->
  same_ignoring_case pattern input.
Proof.
  unfold same_ignoring_case. revert input.
  induction pattern as [|p pattern IH]; intros input; simpl.
  - split.
    + intros H. inversion H. constructor.
    + intros H. inversion H. reflexivity.
  - destruct input as [|c input].
    + split; [discriminate | intros H; inversion H].
    + destruct (N.eqb_spec (canonicalize p) (canonicalize c)) as [Heq|Hne].
      * rewrite IH. split.
        -- intros H. now constructor.
        -- intros H. now inversion H.
      * split; [discriminate|]. intros H. inversion H. contradiction.
Qed.

(** The regular expression accepts exactly the prompts that, trimmed,
    are one of the greetings up to the case of letters. *)
Lemma isGreeting_spec (p : jsstring) :
  isGreeting p = true <->
  exists g, In g greetings /\ same_ignoring_case g (trim p).
Proof.
  unfold isGreeting, test_anchored_alternatives.
  rewrite existsb_exists. split.
  - intros [g [Hg Hm]]. exists g. split; [exact Hg|].
    apply match_literal_whole. cbv beta in Hm.
    destruct (match_literal g (trim p)) as [[|? ?]|];
      [reflexivity | discriminate | discriminate].
  - intros [g [Hg Hm]]. exists g. split; [exact Hg|].
    apply match_literal_whole in Hm. now rewrite Hm.
Qed.

Ltac step_monad :=
  cbv beta iota zeta delta
    [handle chat bind ret get put reply getDashboard
     getDataSourcesByOrganization getEpesiConversation
     createEpesiConversation createEpesiMessage updateEpesiConversation
     call_backend];
  cbn [conv_id dashboards dataSources conversations messages
       backend_calls snd fst].



(** The example of P6, and a short prompt. *)
Example title_of_long_prompt :
  title long_prompt =
  js "Show me sales by region across all quarters for th...".
Proof. reflexivity. Qed.

Example title_of_short_prompt : title (js "Sales by region") = js "Sales by region".
Proof. reflexivity. Qed.

(** C10: a request that reaches an existing dashboard, is filed under a
    conversation [cid] (the stored one it names, or a new one) and whose
    prompt, trimmed, is one of the greetings up to the case of letters,
    is answered with the fixed response and no charts; the generation
    backend is not called, and the user message and the fixed assistant
    message are appended, in this order, to the conversation. *)
Theorem greeting_gets_canned_response
    (backend : Backend) (newConversationId : string) (req : ChatRequest)
    (w : World) (d : Z) (dashboard : Dashboard) (cid : string) :
  dashboardId req = Some d ->
  find (fun x => dash_id x =? d) (dashboards w) = Some dashboard ->
  files_under w req newConversationId cid ->
  (exists g, In g greetings /\ same_ignoring_case g (trim (prompt req))) ->
  fst (handle backend newConversationId req w)
    = Json greeting_response [] cid /\
  backend_calls (snd (handle backend newConversationId req w))
    = backend_calls w /\
  messages (snd (handle backend newConversationId req w))
    = messages w ++
      [mkMessage cid user (prompt req) None;
       mkMessage cid assistant greeting_response None].
Proof.
  intros Hd Hdash Hfile Hgreet. apply isGreeting_spec in Hgreet.
  unfold files_under in Hfile.
  step_monad. rewrite Hd. step_monad. rewrite Hdash.
  destruct (conversationId req) as [i|].
  - destruct Hfile as [c [Hfind <-]].
    destruct (filter _ (dataSources w)); step_monad; rewrite Hfind;
      step_monad; rewrite Hgreet; step_monad;
      rewrite <- app_assoc; repeat split.
  - destruct Hfile as [-> Hfresh].
    destruct (filter _ (dataSources w)); step_monad; rewrite Hfresh;
      step_monad; rewrite Hgreet; step_monad;
      rewrite <- app_assoc; repeat split.
Qed.

Lemma greeting_gets_canned_response_witness :
  fst (handle sample_backend "conv_1"
         (mkChatRequest (js "  HeLLo ") (Some 7) None "u1") sample_world)
    = Json greeting_response [] "conv_1" /\
  backend_calls
    (snd (handle sample_backend "conv_1"
            (mkChatRequest (js "  HeLLo ") (Some 7) None "u1") sample_world))
    = [] /\
  messages
    (snd (handle sample_backend "conv_1"
            (mkChatRequest (js "  HeLLo ") (Some 7) None "u1") sample_world))
    = [] ++
      [mkMessage "conv_1" user (js "  HeLLo ") None;
       mkMessage "conv_1" assistant greeting_response None].
Proof.
  apply (greeting_gets_canned_response sample_backend "conv_1"
           (mkChatRequest (js "  HeLLo ") (Some 7) None "u1") sample_world 7
           (mkDashboard 7 (Some 1)) "conv_1").
  - reflexivity.
  - reflexivity.
  - split; reflexivity.
  - exists (js "hello"). split.
    + unfold greetings. simpl. auto.
    + apply (proj1 (match_literal_whole _ _)). reflexivity.
Defined.

End EpesiChat.

(** ** Chart payload reconciliation: results *)

Section ChartShapes.

Import Js Charts.

Lemma mapi_opt_from_total {A B : Type} (f : A -> nat -> option B)
    (g : A -> nat -> B) (i : nat) (xs : list A) :
  (forall x k, f x k = Some (g x k)) ->
  mapi_opt_from f i xs = Some (mapi_from g i xs).
Proof.
  intros Hf. revert i. induction xs as [|x xs IH]; intros i; simpl;
    [reflexivity|].
  now rewrite Hf, IH.
Qed.

Lemma mapi_from_length {A B : Type} (g : A -> nat -> B) (i : nat)
    (xs : list A) :
  List.length (mapi_from g i xs) = List.length xs.
Proof.
  revert i. induction xs as [|x xs IH]; intros i; simpl; [reflexivity|].
  now rewrite IH.
Qed.

Lemma mapi_from_nth_error {A B : Type} (g : A -> nat -> B) (i n : nat)
    (xs : list A) (x : A) :
  nth_error xs n = Some x ->
  nth_error (mapi_from g i xs) n = Some (g x (i + n)%nat).
Proof.
  revert i n. induction xs as [|y xs IH]; intros i n Hn.
  - destruct n; discriminate.
  - destruct n as [|n]; simpl in *.
    + inversion Hn. now rewrite Nat.add_0_r.
    + rewrite (IH (S i) n Hn). f_equal. f_equal. lia.
Qed.

(** Zipping labels with an array of values never throws. *)
Lemma js_map_zip (labels values : list JsValue) :
  js_map (JArr labels) (zip_entry (JArr values)) =
  Some (JArr (zipped labels values)).
Proof.
  unfold js_map, zipped, mapi.
  now rewrite (mapi_opt_from_total _
                 (fun label i =>
                    entry label (or_else (nth i values JUndefined) (JNum 0)))).
Qed.

(** C8, as stated, fails on its own example: the entries the labeled
    payload reconciles to are keyed [name] and [value], not [label] and
    [value]. *)
Lemma reconciled_entries_are_keyed_by_name :
  SmartInsights.transformChartData
    (labeled_series [JStr "A"; JStr "B"] [JNum 1; JNum 2])
  = Some (JArr [JObj [("name", JStr "A"); ("value", JNum 1)];
                JObj [("name", JStr "B"); ("value", JNum 2)]]) /\
  SmartInsights.transformChartData
    (labeled_series [JStr "A"; JStr "B"] [JNum 1; JNum 2])
  <> Some (JArr [JObj [("label", JStr "A"); ("value", JNum 1)];
                 JObj [("label", JStr "B"); ("value", JNum 2)]]).
Proof.
  split; [reflexivity|]. vm_compute. discriminate.
Qed.

(** C8 (amended): a payload in the labeled-series shape and a payload in
    the category/series shape that carry the same list of labels and
    the same list of values reconcile to the same series: one entry
    [{name, value}] per label, in order.  Members the two payloads
    carry besides are of no account. *)
Theorem both_shapes_reconcile_alike
    (p1 p2 dataset series0 xAxis : list (string * JsValue))
    (more1 more2 labels values : list JsValue) :
  lookup "labels" p1 = JArr labels ->
  lookup "datasets" p1 = JArr (JObj dataset :: more1) ->
  lookup "data" dataset = JArr values ->
  truthy (lookup "labels" p2) && truthy (lookup "datasets" p2) = false ->
  lookup "series" p2 = JArr (JObj series0 :: more2) ->
  lookup "data" series0 = JArr values ->
  lookup "xAxis" p2 = JObj xAxis ->
  lookup "categories" xAxis = JArr labels ->
  SmartInsights.transformChartData (JObj p1)
    = Some (JArr (zipped labels values)) /\
  SmartInsights.transformChartData (JObj p2)
    = Some (JArr (zipped labels values)).
Proof.
  intros Hl1 Hd1 Hv1 Hno Hs2 Hv2 Hx2 Hc2. split.
  - unfold SmartInsights.transformChartData. simpl.
    rewrite Hl1, Hd1. simpl. rewrite Hv1. simpl. apply js_map_zip.
  - unfold SmartInsights.transformChartData. simpl.
    rewrite Hno, Hs2. simpl. rewrite Hx2. simpl. rewrite Hc2, Hv2. simpl.
    apply js_map_zip.
Qed.

Lemma both_shapes_reconcile_alike_witness :
  SmartInsights.transformChartData
    (labeled_series [JStr "A"; JStr "B"] [JNum 1; JNum 2])
  = Some (JArr [JObj [("name", JStr "A"); ("value", JNum 1)];
                JObj [("name", JStr "B"); ("value", JNum 2)]]) /\
  SmartInsights.transformChartData
    (category_series [JStr "A"; JStr "B"] [JNum 1; JNum 2])
  = Some (JArr [JObj [("name", JStr "A"); ("value", JNum 1)];
                JObj [("name", JStr "B"); ("value", JNum 2)]]).
Proof.
  apply (both_shapes_reconcile_alike
           [("labels", JArr [JStr "A"; JStr "B"]);
            ("datasets", JArr [JObj [("data", JArr [JNum 1; JNum 2])]])]
           [("xAxis", JObj [("categories", JArr [JStr "A"; JStr "B"])]);
            ("series", JArr [JObj [("data", JArr [JNum 1; JNum 2])]])]
           [("data", JArr [JNum 1; JNum 2])]
           [("data", JArr [JNum 1; JNum 2])]
           [("categories", JArr [JStr "A"; JStr "B"])]
           [] [] [JStr "A"; JStr "B"] [JNum 1; JNum 2]);
    reflexivity.
Defined.





End ChartShapes.

(* ================================================================== *)
(** * Part III: further properties of the handlers *)
(* ================================================================== *)

(** ** Inserting and moving through the applet router *)

Section AppletRows.

Import Blocks.

Ltac zsplit :=
  repeat match goal with
         | |- context [?a =? ?b] => destruct (Z.eqb_spec a b)
         | |- context [?a <? ?b] => destruct (Z.ltb_spec a b)
         | |- context [?a <=? ?b] => destruct (Z.leb_spec a b)
         end; simpl in *.

(** X1: a create through the applet router with the explicit position
    [p], on an existing dashboard and under a fresh identifier, stores
    the new block at [p], moves every block of that dashboard at a
    position from [p] on up by one, and leaves every other row, of this
    and of any other dashboard, as it is. *)
Theorem applet_insert_shifts_right (newId : string) (d p : Z)
    (req : BlockReq) (db : Db) :
  dashboard_exists d db = true ->
  fresh newId db ->
  r_position req = PosNum p ->
  exists db' new,
    Applet.createBlock newId d req db = Success db' /\
    In new (blocks db') /\
    id new = newId /\ dashboardId new = d /\ position new = p /\
    List.length (blocks db') = S (List.length (blocks db)) /\
    (forall b, In b (blocks db) -> dashboardId b = d -> p <= position b ->
               In (set_position (position b + 1) b) (blocks db')) /\
    (forall b, In b (blocks db) -> dashboardId b <> d \/ position b < p ->
               In b (blocks db')).
Proof.
  intros Hex Hfresh Hr.
  rewrite (applet_create_explicit newId d p req db Hex Hfresh Hr).
  eexists. eexists. split; [reflexivity|]. simpl.
  split; [apply in_or_app; right; now left|].
  repeat split.
  - rewrite length_app, length_map. simpl. lia.
  - intros b Hb Hd Hp. apply in_or_app. left.
    apply in_map_iff. exists b. split; [|exact Hb].
    unfold shift_right. apply in_dashboard_true in Hd. rewrite Hd.
    destruct (Z.leb_spec p (position b)); [reflexivity | lia].
  - intros b Hb Hor. apply in_or_app. left.
    apply in_map_iff. exists b. split; [|exact Hb].
    unfold shift_right. destruct Hor as [Hne|Hlt].
    + assert (Hf : in_dashboard d b = false).
      { unfold in_dashboard. now apply Z.eqb_neq. }
      now rewrite Hf.
    + destruct (Z.leb_spec p (position b)); [lia|].
      now rewrite andb_false_r.
Qed.

Lemma applet_insert_shifts_right_witness :
  exists db' new,
    Applet.createBlock "n" 1 (req_at (PosNum 1)) three_blocks = Success db' /\
    In new (blocks db') /\
    id new = "n" /\ dashboardId new = 1 /\ position new = 1 /\
    List.length (blocks db') = S (List.length (blocks three_blocks)) /\
    (forall b, In b (blocks three_blocks) -> dashboardId b = 1 ->
               1 <= position b ->
               In (set_position (position b + 1) b) (blocks db')) /\
    (forall b, In b (blocks three_blocks) ->
               dashboardId b <> 1 \/ position b < 1 ->
               In b (blocks db')).
Proof.
  apply (applet_insert_shifts_right "n" 1 1 (req_at (PosNum 1)) three_blocks).
  - reflexivity.
  - vm_compute. intuition discriminate.
  - reflexivity.
Defined.

Lemma sql_get_map (i : string) (F : Block -> Block) (t : list Block) :
  (forall b, id (F b) = id b) ->
  sql_get (has_id i) (map F t) = option_map F (sql_get (has_id i) t).
Proof.
  intros HF. unfold sql_get.
  induction t as [|b t IH]; simpl; [reflexivity|].
  unfold has_id at 1. rewrite HF. fold (has_id i b).
  destruct (has_id i b); [reflexivity | exact IH].
Qed.

Lemma move_position_back (old p z : Z) :
  z <> old -> move_position p old (move_position old p z) = z.
Proof.
  intros Hz. unfold move_position.
  destruct (Z.eqb_spec z old) as [|_]; [contradiction|].
  destruct (Z.ltb_spec old p); destruct (Z.leb_spec z p);
    destruct (Z.ltb_spec old z); destruct (Z.leb_spec p z);
    destruct (Z.ltb_spec z old); simpl; zsplit; lia.
Qed.

Lemma move_position_to (old p : Z) : move_position old p old = p.
Proof. unfold move_position. now rewrite Z.eqb_refl. Qed.

Lemma move_position_not_target (old p z : Z) :
  z <> old -> move_position old p z <> p.
Proof.
  intros Hz Heq. apply Hz. apply (move_position_inj old p).
  now rewrite move_position_to.
Qed.

(** The position of every row after a move, on a dashboard whose
    positions are all different. *)
Lemma applet_move_rows (i : string) (req : BlockReq) (db : Db)
    (block : Block) (p : Z) :
  well_formed db ->
  NoDup (positions (dashboardId block) db) ->
  sql_get (has_id i) (blocks db) = Some block ->
  r_position req = PosNum p ->
  exists F : Block -> Block,
    Applet.updateBlock i req db = Success (with_blocks db (map F (blocks db))) /\
    (forall b, id (F b) = id b) /\
    (forall b, dashboardId (F b) = dashboardId b) /\
    (forall b, In b (blocks db) ->
       position (F b) =
       if in_dashboard (dashboardId block) b
       then move_position (position block) p (position b)
       else position b).
Proof.
  intros [Hnd Hfk] Hpos Hget Hr.
  destruct (applet_update_rows i req db block Hget)
    as [F [HF [Hid [Hdash Hrow]]]].
  exists F. split; [exact HF|]. split; [exact Hid|]. split; [exact Hdash|].
  destruct (sql_get_some _ _ _ Hget) as [Hin Hi].
  intros b Hb. rewrite Hrow, Hr.
  destruct (has_id i b) eqn:Hib.
  - apply has_id_true in Hib.
    assert (b = block) by (apply (id_unique (blocks db)); congruence).
    subst b.
    assert (Hd : in_dashboard (dashboardId block) block = true)
      by now apply in_dashboard_true.
    now rewrite Hd, move_position_to.
  - destruct (in_dashboard (dashboardId block) b) eqn:Hd; [|reflexivity].
    simpl. destruct (Z.eqb_spec (position b) (position block)) as [Heq|Hne];
      [|reflexivity].
    exfalso. apply has_id_false in Hib. apply Hib. rewrite <- Hi. f_equal.
    apply (NoDup_map_eq position
             (filter (in_dashboard (dashboardId block)) (blocks db)));
      [exact Hpos | | | exact Heq];
      apply filter_In; split; auto; now apply in_dashboard_true.
Qed.

(** X2: a move through the applet router, inside a dense dashboard,
    puts the block at the new position and shifts only the blocks
    between the old and the new position: down by one those after the
    old position up to the new one, up by one those from the new
    position up to before the old one.  Every other row keeps its
    position, and the dashboard holds the same positions as before. *)
Theorem applet_move_shifts_between (i : string) (req : BlockReq) (db : Db)
    (block : Block) (p : Z) :
  well_formed db ->
  dense (positions (dashboardId block) db) ->
  sql_get (has_id i) (blocks db) = Some block ->
  r_position req = PosNum p ->
  0 <= p < block_count (dashboardId block) db ->
  exists db',
    Applet.updateBlock i req db = Success db' /\
    (exists moved, In moved (blocks db') /\ id moved = i /\
                   dashboardId moved = dashboardId block /\
                   position moved = p) /\
    (forall b, In b (blocks db) -> id b <> i ->
       exists b', In b' (blocks db') /\ id b' = id b /\
         dashboardId b' = dashboardId b /\
         position b' =
           if in_dashboard (dashboardId block) b then
             if (position block <? position b) && (position b <=? p)
             then position b - 1
             else if (p <=? position b) && (position b <? position block)
             then position b + 1
             else position b
           else position b) /\
    Permutation (positions (dashboardId block) db')
      (positions (dashboardId block) db).
Proof.
  intros Hwf Hd Hget Hr Hp.
  destruct (applet_move_rows i req db block p Hwf (proj1 Hd) Hget Hr)
    as [F [HF [Hid [Hdash Hrow]]]].
  destruct (sql_get_some _ _ _ Hget) as [Hin Hi].
  exists (with_blocks db (map F (blocks db))).
  split; [exact HF|]. split; [|split].
  - exists (F block). simpl. split; [now apply in_map|].
    split; [now rewrite Hid|]. split; [apply Hdash|].
    rewrite (Hrow block Hin).
    assert (Hb : in_dashboard (dashboardId block) block = true)
      by now apply in_dashboard_true.
    now rewrite Hb, move_position_to.
  - intros b Hb Hne. exists (F b). simpl.
    split; [now apply in_map|]. split; [apply Hid|].
    split; [apply Hdash|]. rewrite (Hrow b Hb).
    destruct (in_dashboard (dashboardId block) b) eqn:Hbd; [|reflexivity].
    assert (Hpos : position b <> position block).
    { intros Heq. apply Hne. rewrite <- Hi. f_equal.
      destruct Hwf as [Hnd _].
      apply (NoDup_map_eq position
               (filter (in_dashboard (dashboardId block)) (blocks db)));
        [apply Hd | | | exact Heq];
        apply filter_In; split; auto; now apply in_dashboard_true. }
    unfold move_position. zsplit; lia.
  - assert (Hmap : positions (dashboardId block)
                     (with_blocks db (map F (blocks db))) =
                   map (move_position (position block) p)
                     (positions (dashboardId block) db)).
    { apply positions_map; [exact Hdash|]. intros b Hb Hbd.
      rewrite (Hrow b Hb). apply in_dashboard_true in Hbd. now rewrite Hbd. }
    rewrite Hmap.
    assert (Hold : In (position block) (positions (dashboardId block) db)).
    { unfold positions. apply in_map. apply filter_In. split; [exact Hin|].
      now apply in_dashboard_true. }
    pose proof (dense_length_in _ _ Hd Hold) as Hrange.
    assert (Hd' : dense (map (move_position (position block) p)
                           (positions (dashboardId block) db))).
    { apply dense_map; [exact Hd | |].
      - intros x y _ _. apply move_position_inj.
      - intros x Hx. apply move_position_bound; auto.
        apply (dense_length_in _ _ Hd Hx). }
    apply NoDup_Permutation; [apply Hd' | apply Hd |].
    intros z. rewrite (proj2 Hd' z), (proj2 Hd z). now rewrite length_map.
Qed.

Lemma applet_move_shifts_between_witness :
  exists db',
    Applet.updateBlock "a" (req_at (PosNum 2)) three_blocks = Success db' /\
    id_positions db' = [("a", 2); ("b", 0); ("c", 1)] /\
    Permutation (positions 1 db') (positions 1 three_blocks).
Proof.
  destruct (applet_move_shifts_between "a" (req_at (PosNum 2)) three_blocks
              (mkBlock "a" 1 "A" "chart" 4 0) 2
              well_formed_three_blocks dense_three_blocks eq_refl eq_refl)
    as [db' [Hrun [_ [_ Hperm]]]].
  - vm_compute. split; [discriminate | reflexivity].
  - exists db'. split; [exact Hrun|]. split; [|exact Hperm].
    vm_compute in Hrun. inversion Hrun. reflexivity.
Defined.

(** X3: moving a block and then moving it back to where it was puts
    every block of the table at its former position, wherever the first
    move went, as long as the dashboard's positions are all
    different. *)
Theorem applet_move_round_trip (i : string) (db : Db) (block : Block)
    (p : Z) :
  well_formed db ->
  NoDup (positions (dashboardId block) db) ->
  sql_get (has_id i) (blocks db) = Some block ->
  id_positions
    (run [AppletUpdate i (req_at (PosNum p));
          AppletUpdate i (req_at (PosNum (position block)))] db)
  = id_positions db.
Proof.
  intros Hwf Hpos Hget.
  destruct (applet_move_rows i (req_at (PosNum p)) db block p Hwf Hpos Hget
              eq_refl) as [F1 [HF1 [Hid1 [Hdash1 Hrow1]]]].
  destruct (sql_get_some _ _ _ Hget) as [Hin Hi].
  set (db1 := with_blocks db (map F1 (blocks db))).
  assert (Hwf1 : well_formed db1) by now apply wf_map.
  assert (Hget1 : sql_get (has_id i) (blocks db1) = Some (F1 block)).
  { unfold db1. simpl. rewrite sql_get_map by exact Hid1. now rewrite Hget. }
  assert (Hblock1 : position (F1 block) = p).
  { rewrite (Hrow1 block Hin).
    assert (Hb : in_dashboard (dashboardId block) block = true)
      by now apply in_dashboard_true.
    now rewrite Hb, move_position_to. }
  assert (Hpos1 : NoDup (positions (dashboardId (F1 block)) db1)).
  { rewrite Hdash1. unfold db1.
    rewrite (positions_map (dashboardId block) F1
               (move_position (position block) p)).
    - apply NoDup_map_inj; [|exact Hpos].
      intros x y _ _. apply move_position_inj.
    - exact Hdash1.
    - intros b Hb Hbd. rewrite (Hrow1 b Hb).
      apply in_dashboard_true in Hbd. now rewrite Hbd. }
  destruct (applet_move_rows i (req_at (PosNum (position block))) db1
              (F1 block) (position block) Hwf1 Hpos1 Hget1 eq_refl)
    as [F2 [HF2 [Hid2 [Hdash2 Hrow2]]]].
  unfold run. simpl. fold db1. rewrite HF1. simpl. fold db1.
  rewrite HF2. simpl. unfold id_positions, db1. simpl.
  rewrite !map_map. apply map_ext_in. intros b Hb.
  rewrite Hid2, Hid1. f_equal.
  rewrite Hrow2 by (unfold db1; simpl; now apply in_map).
  rewrite Hdash1, Hblock1.
  assert (Hsame : in_dashboard (dashboardId block) (F1 b) =
                  in_dashboard (dashboardId block) b).
  { unfold in_dashboard. now rewrite Hdash1. }
  rewrite Hsame, (Hrow1 b Hb).
  destruct (in_dashboard (dashboardId block) b) eqn:Hbd; [|reflexivity].
  destruct (Z.eq_dec (position b) (position block)) as [Heq|Hne].
  - rewrite Heq, move_position_to. apply move_position_to.
  - now apply move_position_back.
Qed.

Lemma applet_move_round_trip_witness :
  id_positions
    (run [AppletUpdate "a" (req_at (PosNum 7));
          AppletUpdate "a" (req_at (PosNum 0))] three_blocks)
  = id_positions three_blocks.
Proof.
  apply (applet_move_round_trip "a" three_blocks
           (mkBlock "a" 1 "A" "chart" 4 0) 7).
  - exact well_formed_three_blocks.
  - apply dense_three_blocks.
  - reflexivity.
Defined.

End AppletRows.

(** ** Listing a dashboard *)

Section Listing.

Import Blocks.

Lemma insert_by_position_sorted (b : Block) (l : list Block) :
  StronglySorted le_position l ->
  StronglySorted le_position (Storage.insert_by_position b l).
Proof.
  induction l as [|x l IH]; intros Hs; simpl.
  - constructor; constructor.
  - inversion Hs as [|? ? Hl Hx]; subst.
    destruct (Z.ltb_spec (position b) (position x)) as [Hlt|Hge].
    + constructor; [exact Hs|]. constructor; [unfold le_position; lia|].
      eapply Forall_impl; [|exact Hx].
      intros y Hy. unfold le_position in *. lia.
    + constructor; [now apply IH|].
      eapply Permutation_Forall;
        [apply Permutation_sym, insert_by_position_perm|].
      constructor; [exact Hge | exact Hx].
Qed.

Lemma order_by_position_sorted (l : list Block) :
  StronglySorted le_position (Storage.order_by_position l).
Proof.
  unfold Storage.order_by_position.
  induction l as [|x l IH]; simpl; [constructor|].
  now apply insert_by_position_sorted.
Qed.

Lemma sorted_positions_increase (l : list Block) :
  StronglySorted le_position l -> NoDup (map position l) ->
  StronglySorted Z.lt (map position l).
Proof.
  induction l as [|x l IH]; intros Hs Hnd; simpl; [constructor|].
  inversion Hs as [|? ? Hl Hx]; subst.
  simpl in Hnd. inversion Hnd as [|? ? Hnotin Hnd']; subst.
  constructor; [now apply IH|].
  apply Forall_forall. intros z Hz. apply in_map_iff in Hz.
  destruct Hz as [y [<- Hy]].
  pose proof (proj1 (Forall_forall _ _) Hx y Hy) as Hle.
  unfold le_position in Hle.
  assert (position x <> position y).
  { intros Heq. apply Hnotin. rewrite Heq. now apply in_map. }
  lia.
Qed.

Lemma increasing_length (l : list Z) (lo hi : Z) :
  StronglySorted Z.lt l -> (forall z, In z l -> lo <= z < hi) ->
  Z.of_nat (List.length l) <= Z.max 0 (hi - lo).
Proof.
  revert lo. induction l as [|x l IH]; intros lo Hs Hr; simpl; [lia|].
  inversion Hs as [|? ? Hl Hx]; subst.
  assert (Hxr : lo <= x < hi) by (apply Hr; now left).
  assert (Hrest : Z.of_nat (List.length l) <= Z.max 0 (hi - (x + 1))).
  { apply IH; [exact Hl|]. intros z Hz.
    pose proof (proj1 (Forall_forall _ _) Hx z Hz).
    assert (lo <= z < hi) by (apply Hr; now right). lia. }
  lia.
Qed.

(** An increasing list of [n] integers from [lo] up to below [lo + n]
    is [lo, lo + 1, ...]. *)
Lemma increasing_dense (l : list Z) (lo : Z) :
  StronglySorted Z.lt l ->
  (forall z, In z l -> lo <= z < lo + Z.of_nat (List.length l)) ->
  l = map (fun k => lo + Z.of_nat k) (seq 0 (List.length l)).
Proof.
  revert lo. induction l as [|x l IH]; intros lo Hs Hr; [reflexivity|].
  inversion Hs as [|? ? Hl Hx]; subst.
  assert (Hxr : lo <= x < lo + Z.of_nat (List.length (x :: l)))
    by (apply Hr; now left).
  assert (Hin : forall z, In z l ->
                  x + 1 <= z < lo + Z.of_nat (List.length (x :: l))).
  { intros z Hz. pose proof (proj1 (Forall_forall _ _) Hx z Hz).
    assert (lo <= z < lo + Z.of_nat (List.length (x :: l)))
      by (apply Hr; now right). lia. }
  pose proof (increasing_length l (x + 1) _ Hl Hin) as Hlen.
  simpl List.length in *.
  assert (x = lo) by lia. subst x.
  simpl. rewrite Z.add_0_r. f_equal.
  rewrite <- seq_shift, map_map.
  rewrite (IH (lo + 1)) at 1.
  - apply map_ext. intros k. lia.
  - exact Hl.
  - intros z Hz. specialize (Hin z Hz). lia.
Qed.

Lemma nth_error_count (s n k : nat) (z : Z) :
  nth_error (map Z.of_nat (seq s n)) k = Some z -> z = Z.of_nat (s + k).
Proof.
  revert s k. induction n as [|n IH]; intros s k H; simpl in H.
  - destruct k; discriminate.
  - destruct k as [|k]; simpl in H.
    + inversion H. f_equal. lia.
    + apply IH in H. subst z. f_equal. lia.
Qed.

(** On a dense dashboard the listing runs through the positions
    [0, 1, ...] in order. *)
Lemma listing_positions (d : Z) (db : Db) :
  dense (positions d db) ->
  map position (Storage.getBlocksByDashboard d db) =
  map Z.of_nat (seq 0 (List.length (positions d db))).
Proof.
  intros Hd. unfold Storage.getBlocksByDashboard.
  set (sel := filter (in_dashboard d) (blocks db)).
  pose proof (order_by_position_perm sel) as HP.
  assert (Hperm : Permutation (map position (Storage.order_by_position sel))
                    (positions d db)).
  { unfold positions. fold sel. now apply Permutation_map. }
  assert (Hd' : dense (map position (Storage.order_by_position sel))).
  { eapply dense_perm; [apply Permutation_sym, Hperm | exact Hd]. }
  rewrite <- (Permutation_length Hperm).
  rewrite (increasing_dense _ 0) at 1.
  - reflexivity.
  - apply sorted_positions_increase; [apply order_by_position_sorted|].
    apply Hd'.
  - intros z Hz. pose proof (dense_length_in _ _ Hd' Hz). lia.
Qed.

(** After a reorder whose list enumerates the dashboard's blocks, the
    dashboard is dense and every block sits at the index of its
    identifier, whatever the positions were before. *)
Lemma reorder_positions (d : Z) (o : list string) (db : Db) :
  well_formed db -> Permutation o (ids_of d db) ->
  dense (positions d (Storage.reorderBlocks d o db)) /\
  forall b, In b (blocks (Storage.reorderBlocks d o db)) ->
            dashboardId b = d ->
            0 <= position b /\
            nth_error o (Z.to_nat (position b)) = Some (id b).
Proof.
  intros [Hnd Hfk] Hperm. unfold Storage.reorderBlocks.
  rewrite storage_reorder_from, reorder_from_rows.
  assert (Hidx : forall b, In b (blocks db) -> dashboardId b = d ->
            exists k, last_index_from 0 (id b) o = Some k /\
                      position (reorder_row d 0 o b) = k).
  { intros b Hb Hbd.
    assert (Hin : In (id b) o).
    { eapply Permutation_in; [apply Permutation_sym, Hperm|].
      unfold ids_of. apply in_map. apply filter_In. split; [exact Hb|].
      now apply in_dashboard_true. }
    destruct (last_index_from 0 (id b) o) as [k|] eqn:Hl.
    - exists k. split; [reflexivity|]. rewrite reorder_row_spec, Hl.
      apply in_dashboard_true in Hbd. now rewrite Hbd.
    - apply last_index_none in Hl. contradiction. }
  assert (Hlen : List.length o =
                 List.length (filter (in_dashboard d) (blocks db))).
  { rewrite (Permutation_length Hperm). unfold ids_of.
    now rewrite length_map. }
  split.
  - rewrite positions_rows by apply reorder_row_dashboard.
    apply dense_bounded. split.
    + apply NoDup_map_inj.
      * intros x y Hx Hy Heq.
        apply filter_In in Hx, Hy. destruct Hx as [Hx Hxd], Hy as [Hy Hyd].
        apply in_dashboard_true in Hxd, Hyd.
        destruct (Hidx x Hx Hxd) as [kx [Hlx Hpx]].
        destruct (Hidx y Hy Hyd) as [ky [Hly Hpy]].
        assert (kx = ky) by congruence. subst ky.
        apply last_index_some in Hlx, Hly.
        apply (id_unique (blocks db)); try assumption.
        destruct Hlx as [_ Hlx], Hly as [_ Hly]. congruence.
      * apply NoDup_filter. eapply NoDup_map_inv. exact Hnd.
    + intros z Hz. apply in_map_iff in Hz. destruct Hz as [b [<- Hb]].
      apply filter_In in Hb. destruct Hb as [Hb Hbd].
      apply in_dashboard_true in Hbd.
      destruct (Hidx b Hb Hbd) as [k [Hl ->]].
      apply last_index_some in Hl. rewrite length_map. lia.
  - intros b' Hb' Hbd'. simpl in Hb'. apply in_map_iff in Hb'.
    destruct Hb' as [b [<- Hb]].
    rewrite reorder_row_dashboard in Hbd'.
    destruct (Hidx b Hb Hbd') as [k [Hl Hk]].
    rewrite Hk, reorder_row_id. apply last_index_some in Hl.
    rewrite Z.sub_0_r in Hl. split; [lia | apply Hl].
Qed.

(** X4: after a reorder through [server/routes.ts] whose list
    enumerates the blocks of the dashboard, listing the dashboard gives
    its blocks in the order of the list. *)
Theorem reorder_then_list (d : Z) (o : list string) (db : Db) :
  well_formed db -> Permutation o (ids_of d db) ->
  map id
    (Storage.getBlocksByDashboard d
       (db_after db (Routes.reorderBlocks d o db))) = o.
Proof.
  intros Hwf Hperm. unfold Routes.reorderBlocks. simpl db_after.
  destruct (reorder_positions d o db Hwf Hperm) as [Hd Hrow].
  set (db' := Storage.reorderBlocks d o db) in *.
  pose proof (listing_positions d db' Hd) as Hlist.
  assert (Hlen : List.length (Storage.getBlocksByDashboard d db') =
                 List.length o).
  { unfold Storage.getBlocksByDashboard.
    rewrite (Permutation_length (order_by_position_perm _)).
    pose proof (f_equal (@List.length Z) Hlist) as Hl.
    rewrite !length_map, length_seq in Hl.
    unfold Storage.getBlocksByDashboard in Hl.
    rewrite (Permutation_length (order_by_position_perm _)) in Hl.
    rewrite (Permutation_length Hperm). unfold ids_of, db'.
    rewrite length_map.
    unfold positions in Hl. rewrite length_map in Hl.
    unfold Storage.reorderBlocks. simpl.
    rewrite storage_reorder_from, reorder_from_rows.
    rewrite filter_map_same, length_map; [reflexivity|].
    intros b. unfold in_dashboard. now rewrite reorder_row_dashboard. }
  apply nth_error_ext. intros k. rewrite nth_error_map.
  destruct (nth_error (Storage.getBlocksByDashboard d db') k) as [b|] eqn:Hk.
  - simpl.
    assert (Hpos : position b = Z.of_nat k).
    { pose proof (map_nth_error position k _ Hk) as Hp.
      rewrite Hlist in Hp. now apply nth_error_count in Hp. }
    assert (Hin : In b (Storage.getBlocksByDashboard d db'))
      by (eapply nth_error_In; eassumption).
    unfold Storage.getBlocksByDashboard in Hin.
    apply (Permutation_in _ (order_by_position_perm _)) in Hin.
    apply filter_In in Hin. destruct Hin as [Hin Hbd].
    apply in_dashboard_true in Hbd.
    destruct (Hrow b Hin Hbd) as [_ Hnth].
    rewrite Hpos, Nat2Z.id in Hnth. now rewrite Hnth.
  - simpl. apply nth_error_None in Hk. symmetry. apply nth_error_None. lia.
Qed.

Lemma reorder_then_list_witness :
  map id
    (Storage.getBlocksByDashboard 1
       (db_after three_blocks
          (Routes.reorderBlocks 1 ["c"; "a"; "b"] three_blocks)))
  = ["c"; "a"; "b"].
Proof.
  apply (reorder_then_list 1 ["c"; "a"; "b"] three_blocks).
  - exact well_formed_three_blocks.
  - change (ids_of 1 three_blocks) with ["a"; "b"; "c"].
    apply Permutation_sym.
    eapply perm_trans; [apply perm_skip, perm_swap | apply perm_swap].
Defined.






End Listing.

(** ** Saving insights as blocks *)

Section SavingInsights.

Import Blocks AppletInsights.

Lemma insert_from_next (newId : nat -> string) (d first : Z) (i : nat)
    (l : list Insight) (db : Db) :
  insert_from newId d first (S i) l db =
  insert_from (fun k => newId (S k)) d (first + 1) i l db.
Proof.
  revert i db. induction l as [|x l IH]; intros i db; simpl; [reflexivity|].
  replace (first + 1 + Z.of_nat i) with (first + Z.of_nat (S i)) by lia.
  destruct (sql_insert _ db); [apply IH | reflexivity].
Qed.

Lemma save_one_by_one_next (newId : nat -> string) (d p : Z) (i : nat)
    (l : list Insight) (db : Db) :
  save_one_by_one newId d p (S i) l db =
  save_one_by_one (fun k => newId (S k)) d (p + 1) i l db.
Proof.
  revert i db. induction l as [|x l IH]; intros i db; simpl; [reflexivity|].
  replace (p + 1 + Z.of_nat i) with (p + Z.of_nat (S i)) by lia.
  apply IH.
Qed.

Lemma shift_by_id d p k b : id (shift_by d p k b) = id b.
Proof. unfold shift_by. now destruct (_ && _). Qed.

Lemma shift_by_dashboard d p k b :
  dashboardId (shift_by d p k b) = dashboardId b.
Proof. unfold shift_by. now destruct (_ && _). Qed.

Lemma shift_by_zero d p b : shift_by d p 0 b = b.
Proof.
  unfold shift_by. destruct (_ && _); [|reflexivity].
  destruct b. unfold set_position. simpl. now rewrite Z.add_0_r.
Qed.

Lemma shift_by_step d p k b :
  shift_by d (p + 1) k (shift_by d p 1 b) = shift_by d p (1 + k) b.
Proof.
  unfold shift_by.
  destruct (in_dashboard d b) eqn:Hd; cbn [andb]; [|now rewrite Hd].
  destruct (Z.leb_spec p (position b)) as [Hle|Hgt].
  - change (in_dashboard d (set_position (position b + 1) b))
      with (in_dashboard d b).
    change (position (set_position (position b + 1) b))
      with (position b + 1).
    rewrite Hd. cbn [andb].
    destruct (Z.leb_spec (p + 1) (position b + 1)); [|lia].
    unfold set_position. cbn [id dashboardId title btype size position].
    f_equal. lia.
  - rewrite Hd. cbn [andb].
    destruct (Z.leb_spec (p + 1) (position b)); [lia | reflexivity].
Qed.

(** The single save with an explicit position, when it goes through. *)
Lemma save_single_explicit (blockId : string) (d p : Z) (x : Insight)
    (db : Db) :
  d <> 0 -> dashboard_exists d db = true -> fresh blockId db ->
  saveInsightBlock blockId d (Some x) (PosNum p) db =
  Saved (with_blocks db
           (map (shift_by d p 1) (blocks db) ++ [insight_block blockId d x p])).
Proof.
  intros Hd Hex Hfresh. unfold saveInsightBlock.
  destruct (Z.eqb_spec d 0); [contradiction|]. rewrite Hex. simpl negb.
  cbv iota beta zeta. rewrite sql_insert_fresh.
  - reflexivity.
  - simpl. unfold sql_update. rewrite ids_map; [exact Hfresh|].
    intros b. now destruct (_ && _).
  - exact Hex.
Qed.

(** A bulk save of a first insight and others is the single save of the
    first, followed by the bulk save of the others one position
    later. *)
Lemma bulk_step (newId : nat -> string) (d p : Z) (x : Insight)
    (rest : list Insight) (db : Db) :
  d <> 0 -> dashboard_exists d db = true -> fresh (newId 0%nat) db ->
  saveInsightBlocks newId d (Some (x :: rest)) (PosNum p) db =
  saveInsightBlocks (fun k => newId (S k)) d (Some rest) (PosNum (p + 1))
    (with_blocks db
       (map (shift_by d p 1) (blocks db) ++ [insight_block (newId 0%nat) d x p])).
Proof.
  intros Hd Hex Hfresh. unfold saveInsightBlocks.
  destruct (Z.eqb_spec d 0); [contradiction|].
  assert (Hex' : dashboard_exists d
                   (with_blocks db
                      (map (shift_by d p 1) (blocks db) ++
                       [insight_block (newId 0%nat) d x p])) = true)
    by exact Hex.
  rewrite Hex, Hex'. simpl negb. cbv iota beta zeta.
  cbn [insert_from]. rewrite Z.add_0_r.
  rewrite sql_insert_fresh.
  2:{ simpl. unfold sql_update. rewrite ids_map; [exact Hfresh|].
      intros b. now destruct (_ && _). }
  2:{ exact Hex. }
  rewrite insert_from_next. f_equal.
  unfold with_blocks. simpl. f_equal. unfold sql_update.
  rewrite map_app, map_map. simpl. f_equal.
  - apply map_ext. intros b.
    change (shift_by d p (Z.of_nat (S (List.length rest))) b =
            shift_by d (p + 1) (Z.of_nat (List.length rest))
              (shift_by d p 1 b)).
    rewrite shift_by_step. f_equal. lia.
  - f_equal.
    assert (Hin : in_dashboard d (insight_block (newId 0%nat) d x p) = true)
      by now apply in_dashboard_true.
    rewrite Hin. simpl.
    destruct (Z.leb_spec (p + 1) p); [lia | reflexivity].
Qed.

Lemma save_single_keeps (blockId : string) (d p : Z) (x : Insight)
    (db : Db) :
  well_formed db -> all_dense db ->
  dashboard_exists d db = true -> fresh blockId db ->
  0 <= p <= block_count d db ->
  well_formed
    (with_blocks db
       (map (shift_by d p 1) (blocks db) ++ [insight_block blockId d x p])) /\
  all_dense
    (with_blocks db
       (map (shift_by d p 1) (blocks db) ++ [insight_block blockId d x p])) /\
  block_count d
    (with_blocks db
       (map (shift_by d p 1) (blocks db) ++ [insight_block blockId d x p]))
  = block_count d db + 1.
Proof.
  intros Hwf Hall Hex Hfresh Hp.
  assert (Hpos : forall b, position (shift_by d p 1 b) =
                   if in_dashboard d b && (p <=? position b)
                   then position b + 1 else position b).
  { intros b. unfold shift_by. now destruct (_ && _). }
  split; [|split].
  - apply wf_snoc; auto using shift_by_id, shift_by_dashboard.
  - apply (insert_keeps_dense d p (fun z => if p <=? z then z + 1 else z));
      auto using shift_by_dashboard.
    + intros b Hb. rewrite Hpos. apply in_dashboard_true in Hb.
      now rewrite Hb.
    + intros b Hb. rewrite Hpos.
      assert (Hf : in_dashboard d b = false).
      { unfold in_dashboard. now apply Z.eqb_neq. }
      now rewrite Hf.
    + intros y z _ _. destruct (Z.leb_spec p y), (Z.leb_spec p z); lia.
    + intros y Hy. destruct (Z.leb_spec p y); lia.
  - unfold block_count. rewrite positions_snoc.
    assert (Hin : in_dashboard d (insight_block blockId d x p) = true)
      by now apply in_dashboard_true.
    rewrite Hin, length_app.
    rewrite (positions_map d (shift_by d p 1)
               (fun z => if p <=? z then z + 1 else z)).
    + rewrite length_map. simpl. lia.
    + apply shift_by_dashboard.
    + intros b _ Hb. rewrite Hpos. apply in_dashboard_true in Hb.
      now rewrite Hb.
Qed.

Lemma fresh_after_single (newId : nat -> string) (n : nat) (d p : Z)
    (x : Insight) (db : Db) (i : nat) :
  (forall k, (k < S n)%nat -> fresh (newId k) db) ->
  (forall j k, (j < S n)%nat -> (k < S n)%nat -> newId j = newId k -> j = k) ->
  (i < n)%nat ->
  fresh (newId (S i))
    (with_blocks db
       (map (shift_by d p 1) (blocks db) ++ [insight_block (newId 0%nat) d x p])).
Proof.
  intros Hfresh Hinj Hi Hin. simpl in Hin.
  rewrite map_app, ids_map in Hin by apply shift_by_id.
  apply in_app_iff in Hin. destruct Hin as [Hin|[Heq|[]]].
  - apply (Hfresh (S i)); [lia | exact Hin].
  - simpl in Heq. apply Hinj in Heq; lia.
Qed.

(** X6: a bulk save of [k] insights at the explicit position [p] of a
    dense dashboard of [N] blocks, [0 <= p <= N], under fresh and
    pairwise different identifiers, goes through and leaves every
    dashboard dense, the dashboard itself with [N + k] blocks. *)
Theorem bulk_save_keeps_density (newId : nat -> string) (d p : Z)
    (insights : list Insight) (db : Db) :
  well_formed db -> all_dense db ->
  d <> 0 -> dashboard_exists d db = true ->
  (forall i, (i < List.length insights)%nat -> fresh (newId i) db) ->
  (forall i j, (i < List.length insights)%nat ->
               (j < List.length insights)%nat ->
               newId i = newId j -> i = j) ->
  0 <= p <= block_count d db ->
  exists db',
    saveInsightBlocks newId d (Some insights) (PosNum p) db = Saved db' /\
    all_dense db' /\
    block_count d db' = block_count d db + Z.of_nat (List.length insights).
Proof.
  intros Hwf Hall Hd Hex Hfresh Hinj Hp.
  assert (Hgoal : exists db',
            saveInsightBlocks newId d (Some insights) (PosNum p) db
              = Saved db' /\
            well_formed db' /\ all_dense db' /\
            block_count d db' =
              block_count d db + Z.of_nat (List.length insights)).
  { revert newId p db Hwf Hall Hex Hfresh Hinj Hp.
    induction insights as [|x rest IH];
      intros newId p db Hwf Hall Hex Hfresh Hinj Hp.
    - exists (with_blocks db (blocks db)). split; [|split; [|split]].
      + unfold saveInsightBlocks.
        destruct (Z.eqb_spec d 0); [contradiction|]. rewrite Hex.
        simpl. do 2 f_equal. unfold sql_update.
        rewrite <- (map_id (blocks db)) at 2. apply map_ext.
        intros b. apply (shift_by_zero d p b).
      + exact Hwf.
      + exact Hall.
      + simpl. unfold block_count, positions. simpl. lia.
    - rewrite bulk_step; auto; [|apply Hfresh; simpl; lia].
      destruct (save_single_keeps (newId 0%nat) d p x db Hwf Hall Hex)
        as [Hwf1 [Hall1 Hcount1]]; auto; [apply Hfresh; simpl; lia|].
      destruct (IH (fun k => newId (S k)) (p + 1) _ Hwf1 Hall1)
        as [db' [Hrun [Hwf' [Hall' Hcount']]]].
      + exact Hex.
      + intros i Hi. now apply (fresh_after_single newId (List.length rest)).
      + intros i j Hi Hj Heq. apply Hinj in Heq; simpl; lia.
      + rewrite Hcount1. lia.
      + exists db'. split; [exact Hrun|]. split; [exact Hwf'|].
        split; [exact Hall'|]. rewrite Hcount', Hcount1.
        simpl List.length. lia. }
  destruct Hgoal as [db' [Hrun [_ [Hall' Hcount]]]].
  exists db'. auto.
Qed.

(** X7: under fresh and pairwise different identifiers, a bulk save at
    the explicit position [p] leaves the table that saving the insights
    one request at a time at [p], [p + 1], ... leaves. *)
Theorem bulk_save_is_one_by_one (newId : nat -> string) (d p : Z)
    (insights : list Insight) (db : Db) :
  d <> 0 -> dashboard_exists d db = true ->
  (forall i, (i < List.length insights)%nat -> fresh (newId i) db) ->
  (forall i j, (i < List.length insights)%nat ->
               (j < List.length insights)%nat ->
               newId i = newId j -> i = j) ->
  saveInsightBlocks newId d (Some insights) (PosNum p) db =
  Saved (save_one_by_one newId d p 0 insights db).
Proof.
  revert newId p db.
  induction insights as [|x rest IH]; intros newId p db Hd Hex Hfresh Hinj.
  - unfold saveInsightBlocks.
    destruct (Z.eqb_spec d 0); [contradiction|]. rewrite Hex. simpl.
    f_equal. unfold sql_update.
    rewrite (map_ext _ (fun b => b)) by (intros b; apply (shift_by_zero d p b)).
    rewrite map_id. now destruct db.
  - rewrite bulk_step; auto; [|apply Hfresh; simpl; lia].
    cbn [save_one_by_one]. rewrite Z.add_0_r.
    rewrite save_single_explicit; auto; [|apply Hfresh; simpl; lia].
    cbn [db_after_insights]. rewrite save_one_by_one_next.
    apply IH; auto.
    + intros i Hi. now apply (fresh_after_single newId (List.length rest)).
    + intros i j Hi Hj Heq. apply Hinj in Heq; simpl; lia.
Qed.

Lemma sample_ids_fresh (i : nat) :
  (i < List.length two_insights)%nat -> fresh (sample_ids i) three_blocks.
Proof.
  intros Hi. simpl in Hi.
  destruct i as [|[|i]]; [| |lia]; vm_compute; intuition discriminate.
Qed.

Lemma sample_ids_differ (i j : nat) :
  (i < List.length two_insights)%nat -> (j < List.length two_insights)%nat ->
  sample_ids i = sample_ids j -> i = j.
Proof.
  intros Hi Hj. simpl in Hi, Hj.
  destruct i as [|[|i]], j as [|[|j]]; try lia; simpl;
    try reflexivity; discriminate.
Qed.

Lemma bulk_save_keeps_density_witness :
  exists db',
    saveInsightBlocks sample_ids 1 (Some two_insights) (PosNum 1) three_blocks
      = Saved db' /\
    all_dense db' /\
    block_count 1 db' = block_count 1 three_blocks + 2.
Proof.
  apply (bulk_save_keeps_density sample_ids 1 1 two_insights three_blocks).
  - exact well_formed_three_blocks.
  - intros d. destruct (Z.eq_dec d 1) as [->|Hne].
    + exact dense_three_blocks.
    + assert (Hnil : positions d three_blocks = []).
      { unfold positions, three_blocks, in_dashboard.
        cbn [blocks filter dashboardId].
        rewrite (proj2 (Z.eqb_neq 1 d)) by congruence. reflexivity. }
      rewrite Hnil. exact dense_nil.
  - discriminate.
  - reflexivity.
  - exact sample_ids_fresh.
  - exact sample_ids_differ.
  - vm_compute. split; discriminate.
Defined.

Lemma bulk_save_is_one_by_one_witness :
  saveInsightBlocks sample_ids 1 (Some two_insights) (PosNum 1) three_blocks
  = Saved (save_one_by_one sample_ids 1 1 0 two_insights three_blocks) /\
  id_positions (save_one_by_one sample_ids 1 1 0 two_insights three_blocks)
  = [("a", 0); ("b", 3); ("c", 4); ("x", 1); ("y", 2)].
Proof.
  split; [|reflexivity].
  apply (bulk_save_is_one_by_one sample_ids 1 1 two_insights three_blocks).
  - discriminate.
  - reflexivity.
  - exact sample_ids_fresh.
  - exact sample_ids_differ.
Defined.

End SavingInsights.

(** ** Requests stay inside their dashboard *)

Section Isolation.

Import Blocks.












End Isolation.

(** ** The chat route: what is stored and what is sent *)

Section ChatFootprint.

Import JsStr EpesiAgent.







(** X12: a derived title never has more than 53 code units and agrees
    with the prompt on the first 50. *)
Theorem title_bounds (p : jsstring) :
  length (title p) <= 53 /\ firstn 50 (title p) = firstn 50 p.
Proof.
  destruct (Z.ltb_spec 50 (length p)) as [Hlong|Hshort].
  - split; [rewrite title_long_length; lia|].
    rewrite title_long by exact Hlong.
    unfold length in Hlong.
    assert (Hlen : List.length (firstn 50 p) = 50%nat)
      by (rewrite length_firstn; lia).
    rewrite firstn_app, Hlen, Nat.sub_diag, firstn_O, app_nil_r.
    rewrite <- Hlen at 1. apply firstn_all.
  - rewrite title_short by exact Hshort. split; [lia | reflexivity].
Qed.

End ChatFootprint.

(** ** The context window: which turns, in which order *)

Section ContextWindow.

Import ChatHistory.

Lemma insert_desc_perm (t : BlockChatHistory) (l : list BlockChatHistory) :
  Permutation (insert_desc t l) (t :: l).
Proof.
  induction l as [|x l IH]; simpl; [apply Permutation_refl|].
  destruct (generatedAt x <? generatedAt t); [apply Permutation_refl|].
  eapply perm_trans; [apply perm_skip, IH | apply perm_swap].
Qed.

Lemma order_desc_perm (l : list BlockChatHistory) :
  Permutation (order_by_generatedAt_desc l) l.
Proof.
  unfold order_by_generatedAt_desc.
  induction l as [|x l IH]; simpl; [constructor|].
  eapply perm_trans; [apply insert_desc_perm|]. now constructor.
Qed.

Lemma insert_desc_sorted (t : BlockChatHistory) (l : list BlockChatHistory) :
  StronglySorted (fun x y => generatedAt y <= generatedAt x) l ->
  StronglySorted (fun x y => generatedAt y <= generatedAt x)
    (insert_desc t l).
Proof.
  induction l as [|x l IH]; intros Hs; simpl.
  - constructor; constructor.
  - inversion Hs as [|? ? Hl Hx]; subst.
    destruct (Z.ltb_spec (generatedAt x) (generatedAt t)) as [Hlt|Hge].
    + constructor; [exact Hs|]. constructor; [lia|].
      eapply Forall_impl; [|exact Hx]. intros y Hy. simpl in *. lia.
    + constructor; [now apply IH|].
      eapply Permutation_Forall; [apply Permutation_sym, insert_desc_perm|].
      constructor; [exact Hge | exact Hx].
Qed.

Lemma order_desc_sorted (l : list BlockChatHistory) :
  StronglySorted (fun x y => generatedAt y <= generatedAt x)
    (order_by_generatedAt_desc l).
Proof.
  unfold order_by_generatedAt_desc.
  induction l as [|x l IH]; simpl; [constructor|].
  now apply insert_desc_sorted.
Qed.

Lemma sorted_snoc {A : Type} (R : A -> A -> Prop) (l : list A) (a : A) :
  StronglySorted R l -> Forall (fun x => R x a) l ->
  StronglySorted R (l ++ [a]).
Proof.
  induction l as [|x l IH]; intros Hs Hall; simpl.
  - constructor; constructor.
  - inversion Hs as [|? ? Hl Hx]; subst.
    inversion Hall as [|? ? Hxa Hla]; subst.
    constructor; [now apply IH|].
    apply Forall_app. split; [exact Hx | now constructor].
Qed.

Lemma sorted_rev {A : Type} (R : A -> A -> Prop) (l : list A) :
  StronglySorted R l -> StronglySorted (fun x y => R y x) (List.rev l).
Proof.
  induction l as [|x l IH]; intros Hs; simpl; [constructor|].
  inversion Hs as [|? ? Hl Hx]; subst.
  apply sorted_snoc; [now apply IH|].
  apply Forall_rev. exact Hx.
Qed.

Lemma in_firstn_in {A : Type} (n : nat) (l : list A) (x : A) :
  In x (firstn n l) -> In x l.
Proof.
  intros Hx. rewrite <- (firstn_skipn n l). apply in_or_app. now left.
Qed.

Lemma in_skipn_in {A : Type} (n : nat) (l : list A) (x : A) :
  In x (skipn n l) -> In x l.
Proof.
  intros Hx. rewrite <- (firstn_skipn n l). apply in_or_app. now right.
Qed.

Lemma sorted_split {A : Type} (R : A -> A -> Prop) (n : nat) (l : list A) :
  StronglySorted R l ->
  StronglySorted R (firstn n l) /\
  forall x y, In x (firstn n l) -> In y (skipn n l) -> R x y.
Proof.
  revert n. induction l as [|a l IH]; intros n Hs.
  - rewrite firstn_nil, skipn_nil. split; [constructor | intros x y []].
  - inversion Hs as [|? ? Hl Ha]; subst.
    destruct n as [|n]; simpl.
    + split; [constructor | intros x y []].
    + destruct (IH n Hl) as [Hf Hcross]. split.
      * constructor; [exact Hf|].
        apply Forall_forall. intros x Hx.
        apply (proj1 (Forall_forall _ _) Ha). eapply in_firstn_in; eassumption.
      * intros x y [<-|Hx] Hy.
        -- apply (proj1 (Forall_forall _ _) Ha).
           eapply in_skipn_in; eassumption.
        -- now apply Hcross.
Qed.

(** X13: the context a chart request carries holds the six oldest turns
    of the block, or all of them when there are fewer: it has
    [min 6 n] turns for a block of [n] turns, each a stored turn of
    that block, they come in ascending order of [generatedAt], and no
    turn of the block that was left out is older than one that was
    sent. *)
Theorem context_is_the_oldest_turns (b : string)
    (table : list BlockChatHistory) :
  List.length (context_sent b table) =
    Nat.min 6
      (List.length (filter (fun t => String.eqb (blockId t) b) table)) /\
  (forall t, In t (context_sent b table) -> In t table /\ blockId t = b) /\
  StronglySorted (fun x y => generatedAt x <= generatedAt y)
    (context_sent b table) /\
  (forall x y, In x (context_sent b table) ->
               In y table -> blockId y = b ->
               ~ In y (context_sent b table) ->
               generatedAt x <= generatedAt y).
Proof.
  unfold context_sent. rewrite recentHistory_oldest.
  unfold getBlockChatHistory.
  set (sel := filter (fun t => String.eqb (blockId t) b) table).
  pose proof (order_desc_perm sel) as HP.
  pose proof (sorted_rev _ _ (order_desc_sorted sel)) as Hasc.
  cbv beta in Hasc.
  destruct (sorted_split _ 6 _ Hasc) as [Hfirst Hcross].
  split; [|split; [|split]].
  - rewrite length_firstn, length_rev, (Permutation_length HP). reflexivity.
  - intros t Ht. apply in_firstn_in in Ht. apply in_rev in Ht.
    apply (Permutation_in _ HP) in Ht. unfold sel in Ht.
    apply filter_In in Ht. destruct Ht as [Ht Hb].
    split; [exact Ht|]. now apply String.eqb_eq.
  - exact Hfirst.
  - intros x y Hx Hy Hb Hout. apply Hcross; [exact Hx|].
    assert (Hin : In y (List.rev (order_by_generatedAt_desc sel))).
    { apply -> in_rev. apply (Permutation_in _ (Permutation_sym HP)).
      unfold sel. apply filter_In. split; [exact Hy|].
      now apply String.eqb_eq. }
    rewrite <- (firstn_skipn 6) in Hin. apply in_app_iff in Hin.
    destruct Hin as [Hin|Hin]; [contradiction | exact Hin].
Qed.

End ContextWindow.

(** ** The AI block's renderer input *)

Section AIBlockShapes.

Import Js Charts.

Lemma positive_length (n : nat) : positive (JNum (Z.of_nat (S n))) = true.
Proof. unfold positive. apply Z.ltb_lt. lia. Qed.

Lemma aiblock_keeps_named (members : list (string * JsValue))
    (rest : list JsValue) :
  existsb (fun kv => String.eqb (fst kv) "name") members = true ->
  AIBlock.transformChartData (JArr (JObj members :: rest)) =
  Some (JArr (JObj members :: rest)).
Proof.
  intros Hname. unfold AIBlock.transformChartData.
  cbn [truthy negb length_of index Charts.bind nth isArray typeof_object
       has_name List.length].
  rewrite positive_length. cbn [andb]. rewrite Hname. reflexivity.
Qed.

Lemma aiblock_keeps_entries (items : list JsValue) :
  Forall (fun y => exists n v, y = entry n v) items ->
  AIBlock.transformChartData (JArr items) = Some (JArr items).
Proof.
  intros Hall. destruct Hall as [|y items [n [v ->]] _]; [reflexivity|].
  apply aiblock_keeps_named. reflexivity.
Qed.

Lemma mapi_opt_from_entries (f : JsValue -> nat -> option JsValue) (i : nat)
    (xs out : list JsValue) :
  (forall x k y, f x k = Some y -> exists n v, y = entry n v) ->
  mapi_opt_from f i xs = Some out ->
  Forall (fun y => exists n v, y = entry n v) out.
Proof.
  intros Hf. revert i out.
  induction xs as [|x xs IH]; intros i out H; simpl in H.
  - injection H as <-. constructor.
  - destruct (f x i) as [y|] eqn:Hy; [|discriminate].
    destruct (mapi_opt_from f (S i) xs) as [ys|] eqn:Hys; [|discriminate].
    injection H as <-. constructor; [eapply Hf; eassumption|].
    eapply IH; eassumption.
Qed.

Lemma js_map_entries (v : JsValue) (f : JsValue -> nat -> option JsValue)
    (out : JsValue) :
  (forall x k y, f x k = Some y -> exists n v, y = entry n v) ->
  js_map v f = Some out ->
  exists items, out = JArr items /\
                Forall (fun y => exists n v, y = entry n v) items.
Proof.
  intros Hf H. unfold js_map in H.
  destruct v; try discriminate.
  destruct (mapi_opt_from f 0 _) as [ys|] eqn:Hys; [|discriminate].
  injection H as <-. exists ys. split; [reflexivity|].
  eapply mapi_opt_from_entries; eassumption.
Qed.

(** X14: the AI block's reconciliation is idempotent: whatever series
    it returns for a payload, it returns that series unchanged when
    given it again. *)
Theorem aiblock_reconciles_once (data out : JsValue) :
  AIBlock.transformChartData data = Some out ->
  AIBlock.transformChartData out = Some out.
Proof.
  intros H. pose proof H as H0. unfold AIBlock.transformChartData in H.
  assert (Hshape : out = data \/
            exists items, out = JArr items /\
              Forall (fun y => exists n v, y = entry n v) items).
  { repeat match type of H with
           | Some _ = Some _ => injection H as <-
           | context [Charts.bind ?m _] =>
               destruct m eqn:?; cbn [Charts.bind] in H; try discriminate
           | context [if ?c then _ else _] =>
               destruct c eqn:?; try discriminate
           end;
      try (left; reflexivity);
      try (right; exists []; split; [reflexivity | constructor]);
      right; (eapply js_map_entries; [|exact H]);
      intros x k y Hy; cbv beta in Hy;
      try (destruct (index _ k); cbn [Charts.bind] in Hy; [|discriminate]);
      injection Hy as <-; eauto. }
  destruct Hshape as [->|[items [-> Hall]]]; [exact H0|].
  now apply aiblock_keeps_entries.
Qed.

Lemma aiblock_reconciles_once_witness :
  AIBlock.transformChartData
    (JArr (zipped [JStr "Q1"; JStr "Q2"] [JNum 10; JNum 0])) =
  Some (JArr (zipped [JStr "Q1"; JStr "Q2"] [JNum 10; JNum 0])).
Proof.
  apply (aiblock_reconciles_once
           (labeled_series [JStr "Q1"; JStr "Q2"] [JNum 10; JNum 0])).
  reflexivity.
Defined.

(** X15: an array whose first item is a number is read as a flat list
    of values: item [i] becomes [{name: "Item i+1", value}] with the
    value as it came, whatever it is; no item is dropped. *)
Theorem aiblock_labels_flat_numbers (first : JsValue) (rest : list JsValue) :
  typeof_number first = true ->
  exists out,
    AIBlock.transformChartData (JArr (first :: rest)) = Some (JArr out) /\
    List.length out = S (List.length rest) /\
    forall i v,
      nth_error (first :: rest) i = Some v ->
      nth_error out i = Some (entry (AIBlock.item_label i) v).
Proof.
  intros Hnum.
  exists (mapi (fun v i => entry (AIBlock.item_label i) v) (first :: rest)).
  split; [|split].
  - unfold AIBlock.transformChartData.
    destruct first; try discriminate;
      cbn [truthy negb length_of index Charts.bind nth isArray typeof_object
           typeof_number has_name prop lookup List.length andb Z.eqb];
      rewrite ?positive_length;
      cbn [truthy negb length_of index Charts.bind nth isArray typeof_object
           typeof_number has_name prop lookup List.length andb];
      unfold js_map, mapi;
      now rewrite (mapi_opt_from_total _
                     (fun v i => entry (AIBlock.item_label i) v)).
  - unfold mapi. now rewrite mapi_from_length.
  - intros i v Hi. unfold mapi.
    now rewrite (mapi_from_nth_error _ 0 i _ v Hi).
Qed.

Lemma aiblock_labels_flat_numbers_witness :
  exists out,
    AIBlock.transformChartData (JArr [JNum 5; JNum 0; JStr "N/A"])
      = Some (JArr out) /\
    List.length out = 3%nat /\
    forall i v,
      nth_error [JNum 5; JNum 0; JStr "N/A"] i = Some v ->
      nth_error out i = Some (entry (AIBlock.item_label i) v).
Proof.
  apply (aiblock_labels_flat_numbers (JNum 5) [JNum 0; JStr "N/A"]).
  reflexivity.
Defined.

End AIBlockShapes.
